(** * chainlink: event logs, function selectors and the OCR contract tracker

    A shallow embedding of [core/eth/types.go] (package [eth]) and of the
    contract tracker of package [offchainreporting], with the properties of
    the design document proved or refuted on it.

    Conventions.
    - Go's [int] and [uint] are 64 bits wide; a value of either type is a [Z]
      in the range of the type and every conversion writes its wrap-around
      out ([int_of_uint], [int64_of_uint64]).
    - A Go slice is a header (backing array, offset, length, capacity) into a
      store of backing arrays, so that two slices may or may not share
      storage; [make], [copy], indexing and slice expressions act on headers
      and the store as the language specification says they do.
    - A run-time panic is a value: functions that can fault return
      [result]. *)

From Stdlib Require Import ZArith Ascii String List Lia Bool.
From stdpp Require Import base option list gmap strings.

#[local] Open Scope Z_scope.

(** ** Go run-time model shared by both packages *)

Module Go.

Inductive panic : Type :=
  | IndexOutOfRange
  | SliceBoundsOutOfRange
  | DanglingSlice.

Inductive result (A : Type) : Type :=
  | Ok (a : A)
  | Panic (p : panic).
Arguments Ok {A} a.
Arguments Panic {A} p.

(** Sequencing stops at the first panic; [x ← r; k] is stdpp's notation. *)
#[global] Instance result_ret : MRet result := fun A a => Ok a.
#[global] Instance result_bind : MBind result := fun A B k r =>
  match r with
  | Ok a => k a
  | Panic p => Panic p
  end.

Definition faults {A} (r : result A) : bool :=
  match r with Ok _ => false | Panic _ => true end.

(** [int(x)] for [x : uint], and [int64(x)] for [x : uint64]: the same 64 bits
    read as a two's complement number. *)
Definition int_of_uint (x : Z) : Z := (x + 2 ^ 63) mod 2 ^ 64 - 2 ^ 63.
Definition int64_of_uint64 (x : Z) : Z := (x + 2 ^ 63) mod 2 ^ 64 - 2 ^ 63.

Definition loc := positive.

(** A slice header.  The nil slice has no backing array. *)
Record slice : Type := mkSlice {
  base : option loc;
  off : Z;
  len : Z;
  cap : Z
}.

Definition nil_slice : slice := mkSlice None 0 0 0.

Definition is_nil (s : slice) : bool :=
  match base s with None => true | Some _ => false end.

(** Two slices share storage when they are windows on one backing array. *)
Definition shares_storage (s1 s2 : slice) : Prop :=
  exists l, base s1 = Some l /\ base s2 = Some l.

Section Store.
Context {A : Type}.

(** The elements a slice shows: [len s] cells of its array from [off s]. *)
Definition elems (h : gmap loc (list A)) (s : slice) : list A :=
  match base s with
  | None => []
  | Some l =>
      take (Z.to_nat (len s)) (drop (Z.to_nat (off s)) (default [] (h !! l)))
  end.

(** A header is well formed in a store when its window lies inside an
    allocated array. *)
Definition slice_ok (h : gmap loc (list A)) (s : slice) : Prop :=
  0 <= off s /\ 0 <= len s <= cap s /\
  match base s with
  | None => cap s = 0
  | Some l => exists arr, h !! l = Some arr /\
                          off s + cap s <= Z.of_nat (length arr)
  end.

(** [s[i]] *)
Definition index (h : gmap loc (list A)) (s : slice) (i : Z) : result A :=
  if (0 <=? i) && (i <? len s) then
    match elems h s !! Z.to_nat i with
    | Some x => Ok x
    | None => Panic DanglingSlice
    end
  else Panic IndexOutOfRange.

(** [s[i] = v] *)
Definition assign (h : gmap loc (list A)) (s : slice) (i : Z) (v : A)
  : result (gmap loc (list A)) :=
  if (0 <=? i) && (i <? len s) then
    match base s with
    | Some l => Ok (alter (fun arr => <[Z.to_nat (off s + i) := v]> arr) l h)
    | None => Panic DanglingSlice
    end
  else Panic IndexOutOfRange.

(** [s[lo:hi]]: in range when [0 <= lo <= hi <= cap(s)]. *)
Definition reslice (s : slice) (lo hi : Z) : result slice :=
  if (0 <=? lo) && (lo <=? hi) && (hi <=? cap s) then
    Ok (mkSlice (base s) (off s + lo) (hi - lo) (cap s - lo))
  else Panic SliceBoundsOutOfRange.

(** [make([]A, n)]: a new array of [n] zero values. *)
Definition make (zero : A) (h : gmap loc (list A)) (n : Z)
  : gmap loc (list A) * slice :=
  let l := fresh (dom h) in
  (<[l := replicate (Z.to_nat n) zero]> h, mkSlice (Some l) 0 n n).

(** Overwrite the cells of [arr] from position [o] with [data]. *)
Definition blit (o : nat) (data arr : list A) : list A :=
  take o arr ++ data ++ drop (o + length data) arr.

(** [copy(dst, src)]: the first [min(len(dst), len(src))] elements of
    [src], read before any is written, go to the front of [dst]. *)
Definition copy (h : gmap loc (list A)) (dst src : slice) : gmap loc (list A) :=
  match base dst with
  | None => h
  | Some l =>
      let n := Z.to_nat (Z.min (len dst) (len src)) in
      alter (blit (Z.to_nat (off dst)) (take n (elems h src))) l h
  end.

(** The idiom [if s != nil { t = make([]A, len(s)); copy(t, s) }], with
    [t] nil otherwise. *)
Definition dup (zero : A) (h : gmap loc (list A)) (s : slice)
  : gmap loc (list A) * slice :=
  if negb (is_nil s) then
    let '(h, t) := make zero h (len s) in
    (copy h t s, t)
  else (h, nil_slice).

(** [copy(a[:], src)] for an array value [a]. *)
Definition copy_into_array (a : list A) (src : list A) : list A :=
  blit 0 (take (length a) src) a.

(** [a[:]] for an array value [a] that outlives the call: the array moves
    to the store and the slice covers all of it. *)
Definition slice_of_array (h : gmap loc (list A)) (a : list A)
  : gmap loc (list A) * slice :=
  let l := fresh (dom h) in
  let n := Z.of_nat (length a) in
  (<[l := a]> h, mkSlice (Some l) 0 n n).
End Store.

(** A method with a value receiver runs on a copy of the receiver, and what
    it assigns to the copy is gone when it returns.  [value_receiver body] is
    the method as the caller sees it: the receiver the caller holds after the
    call, and the result of the body. *)
Definition value_receiver {S R : Type} (body : S -> S * R) (recv : S) : S * R :=
  (recv, snd (body recv)).

(** [s[lo:]] for a string. *)
Definition string_from (s : string) (lo : nat) : result string :=
  if (lo <=? String.length s)%nat
  then Ok (String.substring lo (String.length s - lo) s)
  else Panic SliceBoundsOutOfRange.

End Go.

(** ** Package eth *)

Module eth.
Import Go.

Definition byte := Byte.byte.
(** [common.Hash] (32 bytes) and [common.Address] (20 bytes), each read as
    one big-endian number. *)
Definition common_Hash := Z.
Definition common_Address := Z.

Definition emptyHash : common_Hash := 0.

(** The two kinds of backing array the package uses. *)
Record Mem : Type := mkMem {
  hashes : gmap loc (list common_Hash);
  bytes : gmap loc (list byte)
}.

Definition UntrustedBytes := slice.

Record Log : Type := mkLog {
  Address : common_Address;
  Topics : slice;
  Data : UntrustedBytes;
  BlockNumber : Z;
  TxHash : common_Hash;
  TxIndex : Z;
  BlockHash : common_Hash;
  Index : Z;
  Removed : bool
}.

(** Interface values of [database/sql/driver.Value] and of [interface{}]
    arguments, by dynamic type. *)
Inductive iface : Type :=
  | INil
  | IBytes (b : slice)
  | IInt64 (z : Z)
  | IBool (b : bool)
  | IString (s : string).

(** Error values, one constructor per message of the package, with the
    values the message is formatted from. *)
Inductive error : Type :=
  | ErrGetTopic (idx : Z) (log : Log)
  | ErrOutOfBoundsSlice
  | ErrMustBeHex (s : string)
  | ErrFunctionIDLength
  | ErrScanType (value : iface)
  | ErrScanLength (temp : slice) (want got : Z)
  | ErrKeccak (msg : string).

Definition error_text (e : error) : string :=
  match e with
  | ErrGetTopic _ _ => "Log: Unable to get topic #%v for %v"
  | ErrOutOfBoundsSlice => "out of bounds slice access"
  | ErrMustBeHex _ => "function selector %s must be 0x-hex encoded"
  | ErrFunctionIDLength => "Function ID must be 4 bytes in length"
  | ErrScanType _ => "unable to convent %v of type %T to FunctionSelector"
  | ErrScanLength _ _ _ =>
      "function selector %v should have length %d, but has length %d"
  | ErrKeccak msg => msg
  end.

(** [Log.GetTopic] *)
Definition GetTopic (m : Mem) (log : Log) (idx : Z)
  : result (common_Hash * option error) :=
  if len (Topics log) <=? int_of_uint idx then
    Ok (emptyHash, Some (ErrGetTopic idx log))
  else
    t ← index (hashes m) (Topics log) idx;
    Ok (t, None).

(** [Log.Copy].  [cpy] starts as the zero [Log], whose slices are nil. *)
Definition Copy (m : Mem) (log : Log) : Mem * Log :=
  let '(hs, cpy_Topics) :=
    if negb (is_nil (Topics log)) then
      let '(hs, t) := make emptyHash (hashes m) (len (Topics log)) in
      (copy hs t (Topics log), t)
    else (hashes m, nil_slice) in
  let '(bs, cpy_Data) :=
    if negb (is_nil (Data log)) then
      let '(bs, d) := make Byte.x00 (bytes m) (len (Data log)) in
      (copy bs d (Data log), d)
    else (bytes m, nil_slice) in
  (mkMem hs bs,
   {| Address := Address log;
      Topics := cpy_Topics;
      Data := cpy_Data;
      BlockNumber := BlockNumber log;
      TxHash := TxHash log;
      TxIndex := TxIndex log;
      BlockHash := BlockHash log;
      Index := Index log;
      Removed := Removed log |}).

(** [TxReceipt]; [Logs] is only ranged over, so it is the sequence of its
    elements. *)
Module TxReceipt.
Record t : Type := mk {
  BlockNumber : option Z;
  BlockHash : option common_Hash;
  Hash : common_Hash;
  Logs : list Log
}.
End TxReceipt.

(** What the package takes from [chainlink/core/utils] and from go-ethereum's
    [common]: none of it is in the file. *)
Class Imports : Type := {
  (** [utils.MustHash("ChainlinkFulfilled(bytes32)")] *)
  ChainlinkFulfilledTopic : common_Hash;
  (** [utils.HasHexPrefix] *)
  HasHexPrefix : string -> bool;
  (** [common.FromHex]: the decoded bytes, in a slice of the store. *)
  FromHex : Mem -> string -> Mem * slice;
  (** [utils.Keccak256] *)
  Keccak256 : Mem -> string -> Mem * (slice * option error)
}.

(** [FunctionSelector] is [[4]byte]: an array value, here the list of its
    four cells. *)
Definition FunctionSelectorLength : Z := 4.
Definition FunctionSelector := list byte.
Definition zeroSelector : FunctionSelector :=
  replicate (Z.to_nat FunctionSelectorLength) Byte.x00.

(** [hexRegexp], ["^[0-9a-fA-F]*$"]: every byte is a hexadecimal digit. *)
Definition is_hex_digit (c : Ascii.ascii) : bool :=
  let n := Ascii.nat_of_ascii c in
  ((48 <=? n) && (n <=? 57) || (97 <=? n) && (n <=? 102) ||
   (65 <=? n) && (n <=? 70))%nat.
Definition hexRegexp_Match (s : string) : bool :=
  forallb is_hex_digit (list_ascii_of_string s).

Section Functions.
Context `{Imports}.

(** [TxReceipt.FulfilledRunLog]: the loop over [txr.Logs]. *)
Fixpoint FulfilledRunLog_range (m : Mem) (logs : list Log) : result bool :=
  match logs with
  | [] => Ok false
  | log :: rest =>
      t ← index (hashes m) (Topics log) 0;
      if t =? ChainlinkFulfilledTopic then Ok true
      else FulfilledRunLog_range m rest
  end.
Definition FulfilledRunLog (m : Mem) (txr : TxReceipt.t) : result bool :=
  FulfilledRunLog_range m (TxReceipt.Logs txr).

(** [FunctionSelector.SetBytes], pointer receiver: the selector after the
    call. *)
Definition SetBytes (m : Mem) (f : FunctionSelector) (b : slice)
  : result FunctionSelector :=
  b' ← reslice b 0 FunctionSelectorLength;
  Ok (copy_into_array f (elems (bytes m) b')).

(** [BytesToFunctionSelector] *)
Definition BytesToFunctionSelector (m : Mem) (b : slice)
  : result FunctionSelector :=
  let f := zeroSelector in
  f ← SetBytes m f b;
  Ok f.

(** [HexToFunctionSelector] *)
Definition HexToFunctionSelector (m : Mem) (s : string)
  : result FunctionSelector :=
  let '(m, b) := FromHex m s in
  BytesToFunctionSelector m b.

(** [FunctionSelector.Bytes], value receiver: [f[:]] of the copy. *)
Definition Bytes (m : Mem) (f : FunctionSelector) : Mem * slice :=
  let '(bs, b) := slice_of_array (bytes m) f in
  (mkMem (hashes m) bs, b).

(** [unmarshalFromString]: the selector [f] points to after the call, and
    the error. *)
Definition unmarshalFromString (m : Mem) (s : string) (f : FunctionSelector)
  : result (FunctionSelector * option error) :=
  if HasHexPrefix s then
    digits ← string_from s 2;
    if negb (hexRegexp_Match digits) then Ok (f, Some (ErrMustBeHex s))
    else
      let '(m, bytes) := FromHex m s in
      if negb (len bytes =? FunctionSelectorLength)
      then Ok (f, Some ErrFunctionIDLength)
      else
        f ← SetBytes m f bytes;
        Ok (f, None)
  else
    let '(m, (bytes, err)) := Keccak256 m s in
    match err with
    | Some e => Ok (f, Some e)
    | None =>
        b ← reslice bytes 0 4;
        f ← SetBytes m f b;
        Ok (f, None)
    end.

(** [FunctionSelector.Value] *)
Definition Value (m : Mem) (f : FunctionSelector)
  : Mem * (iface * option error) :=
  let '(m, b) := Bytes m f in
  (m, (IBytes b, None)).

(** The body of [FunctionSelector.Scan] on its receiver variable. *)
Definition Scan_body (m : Mem) (value : iface) (f : FunctionSelector)
  : FunctionSelector * option error :=
  match value with
  | IBytes temp =>
      if negb (len temp =? FunctionSelectorLength) then
        (f, Some (ErrScanLength temp FunctionSelectorLength (len temp)))
      else
        (copy_into_array f (elems (bytes m) temp), None)
  | _ => (f, Some (ErrScanType value))
  end.

(** [FunctionSelector.Scan] is declared on [FunctionSelector], not on
    [*FunctionSelector]. *)
Definition Scan (m : Mem) (f : FunctionSelector) (value : iface)
  : FunctionSelector * option error :=
  value_receiver (Scan_body m value) f.

(** [UntrustedBytes.SafeByteSlice] *)
Definition SafeByteSlice (ary : UntrustedBytes) (start end_ : Z)
  : result (slice * option error) :=
  if (end_ >? len ary) || (start >? end_) || (start <? 0) || (end_ <? 0) then
    let empty := nil_slice in
    Ok (empty, Some ErrOutOfBoundsSlice)
  else
    r ← reslice ary start end_;
    Ok (r, None).
End Functions.

(** [b] in store [m'] reads as [a] does in store [m]: the scalar fields are
    equal, and each slice is nil when the other is and shows the same
    elements. *)
Definition same_log (m : Mem) (a : Log) (m' : Mem) (b : Log) : Prop :=
  Address b = Address a /\ BlockNumber b = BlockNumber a /\
  TxHash b = TxHash a /\ TxIndex b = TxIndex a /\
  BlockHash b = BlockHash a /\ Index b = Index a /\ Removed b = Removed a /\
  is_nil (Topics b) = is_nil (Topics a) /\
  len (Topics b) = len (Topics a) /\
  elems (hashes m') (Topics b) = elems (hashes m) (Topics a) /\
  is_nil (Data b) = is_nil (Data a) /\
  len (Data b) = len (Data a) /\
  elems (bytes m') (Data b) = elems (bytes m) (Data a).

(** The slices of a log are well formed in a store. *)
Definition log_ok (m : Mem) (log : Log) : Prop :=
  slice_ok (hashes m) (Topics log) /\ slice_ok (bytes m) (Data log).

(** In store [m'], the slices of [cpy] are on other arrays than those of
    [log], and an assignment through a slice of one leaves what the other
    shows as [log] showed it in [m]. *)
Definition independent (m : Mem) (log : Log) (m' : Mem) (cpy : Log) : Prop :=
  ~ shares_storage (Topics cpy) (Topics log) /\
  ~ shares_storage (Data cpy) (Data log) /\
  (forall i v h, assign (hashes m') (Topics cpy) i v = Ok h ->
     elems h (Topics log) = elems (hashes m) (Topics log)) /\
  (forall i v h, assign (hashes m') (Topics log) i v = Ok h ->
     elems h (Topics cpy) = elems (hashes m) (Topics log)) /\
  (forall i v h, assign (bytes m') (Data cpy) i v = Ok h ->
     elems h (Data log) = elems (bytes m) (Data log)) /\
  (forall i v h, assign (bytes m') (Data log) i v = Ok h ->
     elems h (Data cpy) = elems (bytes m) (Data log)).

End eth.

(** ** Package offchainreporting: the contract tracker *)

Module offchainreporting.
Import Go.

Definition gethCommon_Hash := Z.
Definition gethCommon_Address := Z.

(** go-ethereum's [types.Log].  The tracker reads logs and never writes to
    one, so [Topics] and [Data] are the sequences of their elements. *)
Record Log : Type := mkLog {
  Address : gethCommon_Address;
  Topics : list gethCommon_Hash;
  Data : list Byte.byte;
  BlockNumber : Z;
  TxHash : gethCommon_Hash;
  TxIndex : Z;
  BlockHash : gethCommon_Hash;
  Index : Z;
  Removed : bool
}.

(** [ethereum.FilterQuery]; a block bound is the value of its [*big.Int]. *)
Module FilterQuery.
Record t : Type := mk {
  FromBlock : option Z;
  ToBlock : option Z;
  Addresses : list gethCommon_Address;
  Topics : list (list gethCommon_Hash)
}.
End FilterQuery.

(** [big.NewInt(x)] *)
Definition big_NewInt (x : Z) : option Z := Some x.

(** Error values: those of the collaborators, and the ones the tracker
    builds with [errors.Errorf] and [errors.Wrap]. *)
Inductive error : Type :=
  | External (msg : string)
  | ErrNoLogs (contractAddress : gethCommon_Address)
  | ErrAddressMismatch (got want : gethCommon_Address)
  | Wrap (e : error) (msg : string).

(** [offchainaggregator.OffchainAggregatorRoundRequested] *)
Record OffchainAggregatorRoundRequested : Type := mkRoundRequested {
  Requester : gethCommon_Address;
  ConfigDigest : list Byte.byte;
  Epoch : Z;   (* uint32 *)
  Round : Z;   (* uint8 *)
  Raw : Log
}.

Definition zeroLog : Log := mkLog 0 [] [] 0 0 0 0 0 false.

(** [offchainaggregator.OffchainAggregatorConfigSet]: the decoded fields,
    whose types libocr declares, and the raw log. *)
Module ConfigSet.
Record t (F : Type) : Type := mk { Fields : F; Raw : Log }.
Arguments mk {F} _ _.
Arguments Fields {F} _.
Arguments Raw {F} _.
(** [e.Raw = raw] *)
Definition setRaw {F} (e : t F) (raw : Log) : t F := mk (Fields e) raw.
End ConfigSet.

(** [log.Broadcast] as the tracker sees it: the log, and the answers of the
    two calls that go to the broadcaster's records. *)
Record Broadcast : Type := mkBroadcast {
  RawLog : Log;
  WasAlreadyConsumed : bool * option error;
  MarkConsumed : option error
}.

(** What the tracker is built on: libocr's contract bindings and
    [confighelper], the event topics [getEventTopic] reads off the ABI at
    start-up, and the Ethereum client. *)
Class Collaborators : Type := {
  ConfigSetFields : Type;
  ContractConfig : Type;
  (** the zero [ocrtypes.ContractConfig] *)
  zeroContractConfig : ContractConfig;
  OCRContractConfigSet : gethCommon_Hash;
  OCRContractLatestRoundRequested : gethCommon_Hash;
  ParseConfigSet : Log -> ConfigSet.t ConfigSetFields + error;
  ParseRoundRequested : Log -> OffchainAggregatorRoundRequested + error;
  ContractConfigFromConfigSetEvent : ConfigSet.t ConfigSetFields -> ContractConfig;
  FilterLogs : FilterQuery.t -> list Log * option error
}.

(** How a piece of a method body ends: it goes on with a value, returns
    from the method, or faults. *)
Inductive flow (R A : Type) : Type :=
  | Next (a : A)
  | Return (r : R)
  | Fault (p : panic).
Arguments Next {R A} a.
Arguments Return {R A} r.
Arguments Fault {R A} p.

Definition faulted {R A} (f : flow R A) : bool :=
  match f with Fault _ => true | _ => false end.

Section Tracker.
Context `{Collaborators}.

(** Every call the tracker makes on a collaborator, in order. *)
Inductive Call : Type :=
  | Errorw (msg : string) (e : option error)
  | Errorf (msg : string) (got want : gethCommon_Address)
  | Warn (msg : string) (stored candidate : OffchainAggregatorRoundRequested)
  | CallWasAlreadyConsumed
  | CallMarkConsumed
  | CallParseConfigSet (raw : Log)
  | CallParseRoundRequested (raw : Log)
  | Deliver (cc : ContractConfig)
  | CallFilterLogs (q : FilterQuery.t).

(** The fields of [OCRContractTracker] that the log handler and the chain
    reads use. *)
Record OCRContractTracker : Type := mkTracker {
  contractAddress : gethCommon_Address;
  jobID : Z;
  latestRoundRequested : OffchainAggregatorRoundRequested
}.


Definition set_latestRoundRequested (t : OCRContractTracker)
    (rr : OffchainAggregatorRoundRequested) : OCRContractTracker :=
  mkTracker (contractAddress t) (jobID t) rr.

(** A method body reads and writes the tracker and appends to the calls
    made so far. *)
Definition M (R A : Type) : Type :=
  OCRContractTracker -> list Call -> flow R A * OCRContractTracker * list Call.

Definition pure {R A} (a : A) : M R A := fun t cs => (Next a, t, cs).
Definition ret {R A} (r : R) : M R A := fun t cs => (Return r, t, cs).
Definition bind {R A B} (m : M R A) (k : A -> M R B) : M R B :=
  fun t cs =>
    match m t cs with
    | (Next a, t, cs) => k a t cs
    | (Return r, t, cs) => (Return r, t, cs)
    | (Fault p, t, cs) => (Fault p, t, cs)
    end.
Definition call {R} (c : Call) : M R unit := fun t cs => (Next tt, t, cs ++ [c]).
Definition this {R} : M R OCRContractTracker := fun t cs => (Next t, t, cs).
Definition store_latestRoundRequested {R}
    (rr : OffchainAggregatorRoundRequested) : M R unit :=
  fun t cs => (Next tt, set_latestRoundRequested t rr, cs).
(** [l[i]] *)
Definition at_index {R A} (l : list A) (i : Z) : M R A :=
  fun t cs =>
    if (0 <=? i) && (i <? Z.of_nat (length l)) then
      match l !! Z.to_nat i with
      | Some x => (Next x, t, cs)
      | None => (Fault IndexOutOfRange, t, cs)
      end
    else (Fault IndexOutOfRange, t, cs).
End Tracker.

Notation "'do' x <- m ; k" := (bind m (fun x => k))
  (at level 10, x name, m at level 100, k at level 200, only parsing).
Notation "'run' m ; k" := (bind m (fun _ => k))
  (at level 10, m at level 100, k at level 200, only parsing).

Section Methods.
Context `{Collaborators}.

(** [HandleLog], the body of the method. *)
Definition HandleLog_body (lb : Broadcast) (err : option error) : M unit unit :=
  run (match err with
       | Some e =>
           run call (Errorw "OCRContract: error in previous LogListener" (Some e));
           ret tt
       | None => pure tt
       end);
  do r <- (run call CallWasAlreadyConsumed; pure (WasAlreadyConsumed lb));
  let '(was, err) := r in
  run (match err with
       | Some e =>
           run call (Errorw "OCRContract: could not determine if log was already consumed" (Some e));
           ret tt
       | None => if was then ret tt else pure tt
       end);
  let topics := Topics (RawLog lb) in
  run (if Z.of_nat (length topics) =? 0 then ret tt else pure tt);
  do topic0 <- at_index topics 0;
  run (if topic0 =? OCRContractConfigSet then
         let raw := RawLog lb in
         do t <- this;
         run (if negb (Address raw =? contractAddress t) then
                run call (Errorf "log address of 0x%x does not match configured contract address of 0x%x"
                            (Address raw) (contractAddress t));
                ret tt
              else pure tt);
         do parsed <- (run call (CallParseConfigSet raw); pure (ParseConfigSet raw));
         match parsed with
         | inr e =>
             run call (Errorw "could not parse config set" (Some e));
             ret tt
         | inl configSet =>
             let configSet := ConfigSet.setRaw configSet (RawLog lb) in
             let cc := ContractConfigFromConfigSetEvent configSet in
             call (Deliver cc)
         end
       else if topic0 =? OCRContractLatestRoundRequested then
         let raw := RawLog lb in
         do t <- this;
         run (if negb (Address raw =? contractAddress t) then
                run call (Errorf "log address of 0x%x does not match configured contract address of 0x%x"
                            (Address raw) (contractAddress t));
                ret tt
              else pure tt);
         do parsed <- (run call (CallParseRoundRequested raw); pure (ParseRoundRequested raw));
         match parsed with
         | inr e =>
             run call (Errorw "could not parse round requested" (Some e));
             ret tt
         | inl rr =>
             do t <- this;
             if (Round rr >=? Round (latestRoundRequested t)) &&
                (Epoch rr >=? Epoch (latestRoundRequested t))
             then store_latestRoundRequested rr
             else call (Warn "OCRContractTracker: ignoring out of date RoundRequested event"
                          (latestRoundRequested t) rr)
         end
       else pure tt);
  do err <- (run call CallMarkConsumed; pure (MarkConsumed lb));
  match err with
  | Some e =>
      run call (Errorw "OCRContract: could not mark log consumed" (Some e));
      ret tt
  | None => pure tt
  end.

(** The outcome of a method call: the tracker afterwards, the calls it
    made, and its result ([Next] is falling off the end of the body). *)
Definition HandleLog (t : OCRContractTracker) (lb : Broadcast) (err : option error)
  : flow unit unit * OCRContractTracker * list Call :=
  HandleLog_body lb err t [].

(** [ConfigFromLogs]; [c] is the named result, zero until assigned. *)
Definition ConfigFromLogs_body (changedInBlock : Z)
  : M (ContractConfig * option error) (ContractConfig * option error) :=
  let c := zeroContractConfig in
  do t <- this;
  let q := {| FilterQuery.FromBlock := big_NewInt (int64_of_uint64 changedInBlock);
              FilterQuery.ToBlock := big_NewInt (int64_of_uint64 changedInBlock);
              FilterQuery.Addresses := [contractAddress t];
              FilterQuery.Topics := [[OCRContractConfigSet]] |} in
  do r <- (run call (CallFilterLogs q); pure (FilterLogs q));
  let '(logs, err) := r in
  run (match err with
       | Some e => ret (c, Some e)
       | None => pure tt
       end);
  run (if Z.of_nat (length logs) =? 0
       then ret (c, Some (ErrNoLogs (contractAddress t)))
       else pure tt);
  do last <- at_index logs (Z.of_nat (length logs) - 1);
  do parsed <- (run call (CallParseConfigSet last); pure (ParseConfigSet last));
  match parsed with
  | inr e => ret (c, Some (Wrap e "ConfigFromLogs failed to ParseConfigSet"))
  | inl latest =>
      do last <- at_index logs (Z.of_nat (length logs) - 1);
      let latest := ConfigSet.setRaw latest last in
      if negb (Address (ConfigSet.Raw latest) =? contractAddress t) then
        ret (c, Some (ErrAddressMismatch (Address (ConfigSet.Raw latest))
                        (contractAddress t)))
      else ret (ContractConfigFromConfigSetEvent latest, None)
  end.

Definition ConfigFromLogs (t : OCRContractTracker) (changedInBlock : Z)
  : flow (ContractConfig * option error) (ContractConfig * option error)
    * OCRContractTracker * list Call :=
  ConfigFromLogs_body changedInBlock t [].

(** The end of [HandleLog] once the dispatch is through: the call to
    [MarkConsumed] and, when it fails, the error that is logged. *)
Definition marking (lb : Broadcast) : flow unit unit * list Call :=
  match MarkConsumed lb with
  | Some e =>
      (Return tt,
       [CallMarkConsumed; Errorw "OCRContract: could not mark log consumed" (Some e)])
  | None => (Next tt, [CallMarkConsumed])
  end.

(** What a method call did, read off the calls it made. *)
Definition is_mark (c : Call) : bool :=
  match c with CallMarkConsumed => true | _ => false end.
Definition is_decode (c : Call) : bool :=
  match c with CallParseConfigSet _ | CallParseRoundRequested _ => true | _ => false end.
Definition is_deliver (c : Call) : bool :=
  match c with Deliver _ => true | _ => false end.
Definition marks_consumed (calls : list Call) : bool := existsb is_mark calls.
Definition decodes (calls : list Call) : bool := existsb is_decode calls.
Definition delivers (calls : list Call) : bool := existsb is_deliver calls.

(** The filter query a method call sent to the client first, if any. *)
Definition query_issued (calls : list Call) : option FilterQuery.t :=
  match calls with
  | CallFilterLogs q :: _ => Some q
  | _ => None
  end.

(** The query over the blocks [lo] to [hi] for the configuration-changed
    logs of the tracked contract. *)
Definition config_query (t : OCRContractTracker) (lo hi : Z) : FilterQuery.t :=
  {| FilterQuery.FromBlock := Some lo;
     FilterQuery.ToBlock := Some hi;
     FilterQuery.Addresses := [contractAddress t];
     FilterQuery.Topics := [[OCRContractConfigSet]] |}.

(** The candidate passes the test [HandleLog] makes under the lock. *)
Definition not_older (rr stored : OffchainAggregatorRoundRequested) : Prop :=
  Epoch rr >= Epoch stored /\ Round rr >= Round stored.

(** Reorg safety as the design document words it: a log with [removed=true]
    neither replaces the stored round request nor reaches the mailbox. *)
Definition reorg_safe : Prop :=
  forall (t : OCRContractTracker) (lb : Broadcast) (err : option error),
    Removed (RawLog lb) = true ->
    latestRoundRequested (HandleLog t lb err).1.2 = latestRoundRequested t /\
    delivers (HandleLog t lb err).2 = false.

(** The same broadcast as the broadcaster hands it out again once a call to
    [MarkConsumed] has succeeded: [WasAlreadyConsumed] answers true. *)
Definition redelivered (lb : Broadcast) : Broadcast :=
  mkBroadcast (RawLog lb) (true, None) (MarkConsumed lb).

(** [LatestRoundRequested]: the stored round request, and never an error. *)
Definition LatestRoundRequested (t : OCRContractTracker)
  : list Byte.byte * Z * Z * option error :=
  (ConfigDigest (latestRoundRequested t), Epoch (latestRoundRequested t),
   Round (latestRoundRequested t), None).

(** The tracker after the broadcaster has called [HandleLog] for each
    delivery in turn. *)
Definition deliver_all (t : OCRContractTracker)
    (deliveries : list (Broadcast * option error)) : OCRContractTracker :=
  fold_left (fun t d => (HandleLog t d.1 d.2).1.2) deliveries t.

End Methods.

Section Outcomes.
Context `{Collaborators}.

(** [HandleLog] case by case: what a call on tracker [t] with broadcast [lb]
    and prior error [err] comes to, along each path through the body. *)
Inductive outcome (t : OCRContractTracker) (lb : Broadcast) (err : option error)
    (r : flow unit unit * OCRContractTracker * list Call) : Prop :=
  | prior_error (e : error) :
      err = Some e ->
      r = (Return tt, t,
           [Errorw "OCRContract: error in previous LogListener" (Some e)]) ->
      outcome t lb err r
  | query_failed (was : bool) (e : error) :
      err = None -> WasAlreadyConsumed lb = (was, Some e) ->
      r = (Return tt, t,
           [CallWasAlreadyConsumed;
            Errorw "OCRContract: could not determine if log was already consumed"
              (Some e)]) ->
      outcome t lb err r
  | already_consumed :
      err = None -> WasAlreadyConsumed lb = (true, None) ->
      r = (Return tt, t, [CallWasAlreadyConsumed]) ->
      outcome t lb err r
  | no_topics :
      err = None -> WasAlreadyConsumed lb = (false, None) ->
      Topics (RawLog lb) = [] ->
      r = (Return tt, t, [CallWasAlreadyConsumed]) ->
      outcome t lb err r
  | unrecognized (topic0 : gethCommon_Hash) (rest : list gethCommon_Hash) :
      err = None -> WasAlreadyConsumed lb = (false, None) ->
      Topics (RawLog lb) = topic0 :: rest ->
      topic0 <> OCRContractConfigSet ->
      topic0 <> OCRContractLatestRoundRequested ->
      r = ((marking lb).1, t, [CallWasAlreadyConsumed] ++ (marking lb).2) ->
      outcome t lb err r
  | other_contract (topic0 : gethCommon_Hash) (rest : list gethCommon_Hash) :
      err = None -> WasAlreadyConsumed lb = (false, None) ->
      Topics (RawLog lb) = topic0 :: rest ->
      topic0 = OCRContractConfigSet \/ topic0 = OCRContractLatestRoundRequested ->
      Address (RawLog lb) <> contractAddress t ->
      r = (Return tt, t,
           [CallWasAlreadyConsumed;
            Errorf "log address of 0x%x does not match configured contract address of 0x%x"
              (Address (RawLog lb)) (contractAddress t)]) ->
      outcome t lb err r
  | config_undecodable (rest : list gethCommon_Hash) (e : error) :
      err = None -> WasAlreadyConsumed lb = (false, None) ->
      Topics (RawLog lb) = OCRContractConfigSet :: rest ->
      Address (RawLog lb) = contractAddress t ->
      ParseConfigSet (RawLog lb) = inr e ->
      r = (Return tt, t,
           [CallWasAlreadyConsumed; CallParseConfigSet (RawLog lb);
            Errorw "could not parse config set" (Some e)]) ->
      outcome t lb err r
  | config_delivered (rest : list gethCommon_Hash)
      (configSet : ConfigSet.t ConfigSetFields) :
      err = None -> WasAlreadyConsumed lb = (false, None) ->
      Topics (RawLog lb) = OCRContractConfigSet :: rest ->
      Address (RawLog lb) = contractAddress t ->
      ParseConfigSet (RawLog lb) = inl configSet ->
      r = ((marking lb).1, t,
           [CallWasAlreadyConsumed; CallParseConfigSet (RawLog lb);
            Deliver (ContractConfigFromConfigSetEvent
                       (ConfigSet.setRaw configSet (RawLog lb)))]
           ++ (marking lb).2) ->
      outcome t lb err r
  | round_undecodable (rest : list gethCommon_Hash) (e : error) :
      err = None -> WasAlreadyConsumed lb = (false, None) ->
      Topics (RawLog lb) = OCRContractLatestRoundRequested :: rest ->
      OCRContractLatestRoundRequested <> OCRContractConfigSet ->
      Address (RawLog lb) = contractAddress t ->
      ParseRoundRequested (RawLog lb) = inr e ->
      r = (Return tt, t,
           [CallWasAlreadyConsumed; CallParseRoundRequested (RawLog lb);
            Errorw "could not parse round requested" (Some e)]) ->
      outcome t lb err r
  | round_stored (rest : list gethCommon_Hash)
      (rr : OffchainAggregatorRoundRequested) :
      err = None -> WasAlreadyConsumed lb = (false, None) ->
      Topics (RawLog lb) = OCRContractLatestRoundRequested :: rest ->
      OCRContractLatestRoundRequested <> OCRContractConfigSet ->
      Address (RawLog lb) = contractAddress t ->
      ParseRoundRequested (RawLog lb) = inl rr ->
      not_older rr (latestRoundRequested t) ->
      r = ((marking lb).1, set_latestRoundRequested t rr,
           [CallWasAlreadyConsumed; CallParseRoundRequested (RawLog lb)]
           ++ (marking lb).2) ->
      outcome t lb err r
  | round_ignored (rest : list gethCommon_Hash)
      (rr : OffchainAggregatorRoundRequested) :
      err = None -> WasAlreadyConsumed lb = (false, None) ->
      Topics (RawLog lb) = OCRContractLatestRoundRequested :: rest ->
      OCRContractLatestRoundRequested <> OCRContractConfigSet ->
      Address (RawLog lb) = contractAddress t ->
      ParseRoundRequested (RawLog lb) = inl rr ->
      ~ not_older rr (latestRoundRequested t) ->
      r = ((marking lb).1, t,
           [CallWasAlreadyConsumed; CallParseRoundRequested (RawLog lb);
            Warn "OCRContractTracker: ignoring out of date RoundRequested event"
              (latestRoundRequested t) rr] ++ (marking lb).2) ->
      outcome t lb err r.

(** How many of the calls are deliveries to the mailbox, and how many are
    calls of a decoder. *)
Definition deliveries_made (calls : list Call) : nat :=
  length (List.filter is_deliver calls).
Definition decodings_made (calls : list Call) : nat :=
  length (List.filter is_decode calls).
End Outcomes.

(** The answer of [contractCaller.LatestConfigDetails]: [ConfigCount] and
    [BlockNumber] are [uint32], [ConfigDigest] is [[16]byte]. *)
Module ConfigDetails.
Record t : Type := mk {
  ConfigCount : Z;
  BlockNumber : Z;
  ConfigDigest : list Byte.byte
}.
End ConfigDetails.

(** The contract caller of libocr's bindings, and
    [ocrtypes.BytesToConfigDigest]. *)
Class ContractCaller : Type := {
  caller_LatestConfigDetails : ConfigDetails.t * option error;
  BytesToConfigDigest : list Byte.byte -> list Byte.byte * option error
}.

(** The zero [ocrtypes.ConfigDigest]. *)
Definition zeroConfigDigest : list Byte.byte := replicate 16 Byte.x00.

(** [uint64(x)] for [x : uint32]. *)
Definition uint64_of_uint32 (x : Z) : Z := x mod 2 ^ 64.

(** [LatestConfigDetails]; [configDigest] is the named result, zero until
    assigned. *)
Definition LatestConfigDetails `{ContractCaller}
  : Z * list Byte.byte * option error :=
  let configDigest := zeroConfigDigest in
  let '(result, err) := caller_LatestConfigDetails in
  match err with
  | Some e => (0, configDigest, Some (Wrap e "error getting LatestConfigDetails"))
  | None =>
      let '(configDigest, err) :=
        BytesToConfigDigest (ConfigDetails.ConfigDigest result) in
      match err with
      | Some e => (0, configDigest, Some (Wrap e "error getting config digest"))
      | None => (uint64_of_uint32 (ConfigDetails.BlockNumber result), configDigest, err)
      end
  end.

End offchainreporting.

(** ** Concrete collaborators and inputs

    Instances of the two interfaces above and a few values, on which the
    definitions can be run. *)

Module Sample.
Import Go.

(** The value of a hexadecimal digit. *)
Definition hex_val (c : Ascii.ascii) : option N :=
  let n := Ascii.N_of_ascii c in
  if ((48 <=? n) && (n <=? 57))%N then Some (n - 48)%N
  else if ((97 <=? n) && (n <=? 102))%N then Some (n - 87)%N
  else if ((65 <=? n) && (n <=? 70))%N then Some (n - 55)%N
  else None.

(** Decode two digits at a time, up to the first that is not one. *)
Fixpoint hex_pairs (cs : list Ascii.ascii) : list Byte.byte :=
  match cs with
  | a :: b :: rest =>
      match hex_val a, hex_val b with
      | Some x, Some y =>
          match Byte.of_N (16 * x + y) with
          | Some v => v :: hex_pairs rest
          | None => []
          end
      | _, _ => []
      end
  | _ => []
  end.

Definition has0xPrefix (s : string) : bool :=
  match s with
  | String "0"%char (String "x"%char _)
  | String "0"%char (String "X"%char _) => true
  | _ => false
  end.

(** A hexadecimal decoder in the manner of [common.FromHex]: the prefix is
    optional, an odd number of digits gets a leading zero, and the bytes
    come in a new slice whose capacity is its length. *)
Definition fromHex (m : eth.Mem) (s : string) : eth.Mem * slice :=
  let s := if has0xPrefix s then String.substring 2 (String.length s - 2) s else s in
  let s := if Nat.odd (String.length s) then String "0"%char s else s in
  let '(bs, b) := slice_of_array (eth.bytes m) (hex_pairs (list_ascii_of_string s)) in
  (eth.mkMem (eth.hashes m) bs, b).

#[export] Instance imports : eth.Imports := {|
  eth.ChainlinkFulfilledTopic := 0x7cc135e0;
  eth.HasHexPrefix := has0xPrefix;
  eth.FromHex := fromHex;
  eth.Keccak256 := fun m _ => (m, (nil_slice, Some (eth.ErrKeccak "keccak256: not available")))
|}.

Definition emptyMem : eth.Mem := eth.mkMem ∅ ∅.

(** A store with one topic array and one payload array, and a log over
    them. *)
Definition mem1 : eth.Mem :=
  eth.mkMem {[ 1%positive := [11; 22; 33] ]}
            {[ 1%positive := [Byte.x0a; Byte.x0b; Byte.x0c; Byte.x0d; Byte.x0e] ]}.
Definition log1 : eth.Log :=
  eth.mkLog 7 (mkSlice (Some 1%positive) 0 3 3) (mkSlice (Some 1%positive) 1 3 4)
            100 5 0 6 2 false.

(** A receipt that carries the sample log. *)
Definition receipt1 : eth.TxReceipt.t :=
  eth.TxReceipt.mk (Some 100) (Some 6) 5 [log1].

(** A log without topics, and a receipt that carries it. *)
Definition bareLog : eth.Log := eth.mkLog 7 nil_slice nil_slice 100 5 0 6 2 false.
Definition bareReceipt : eth.TxReceipt.t :=
  eth.TxReceipt.mk (Some 100) (Some 6) 5 [bareLog].

Definition sel1234 : eth.FunctionSelector := [Byte.x01; Byte.x02; Byte.x03; Byte.x04].

(** Tracker collaborators over a payload of two bytes: a configuration
    event carries its first byte, a round request the epoch and the round. *)
Definition byteZ (b : Byte.byte) : Z := Z.of_N (Byte.to_N b).

Definition parseConfigSet (raw : offchainreporting.Log)
  : offchainreporting.ConfigSet.t Z + offchainreporting.error :=
  match offchainreporting.Data raw with
  | b :: _ => inl (offchainreporting.ConfigSet.mk (byteZ b) offchainreporting.zeroLog)
  | [] => inr (offchainreporting.External "abi: attempting to unmarshall an empty string")
  end.

Definition parseRoundRequested (raw : offchainreporting.Log)
  : offchainreporting.OffchainAggregatorRoundRequested + offchainreporting.error :=
  match offchainreporting.Data raw with
  | e :: r :: _ => inl (offchainreporting.mkRoundRequested 0 [] (byteZ e) (byteZ r) raw)
  | _ => inr (offchainreporting.External "abi: attempting to unmarshall an empty string")
  end.

Definition topicConfigSet : Z := 0x25d719d8.
Definition topicRoundRequested : Z := 0x3ea16a92.
Definition tracked : Z := 0xc0de.

(** The logs of a small chain, and a client that filters them. *)
Definition chainLog (addr topic : Z) (payload : list Byte.byte) (block : Z) (removed : bool)
  : offchainreporting.Log :=
  offchainreporting.mkLog addr [topic] payload block 0 0 0 0 removed.

Definition chain : list offchainreporting.Log :=
  [ chainLog tracked topicConfigSet [Byte.x01] 10 false;
    chainLog tracked topicRoundRequested [Byte.x05; Byte.x03] 11 false;
    chainLog tracked topicConfigSet [Byte.x02] 12 false;
    chainLog tracked topicConfigSet [Byte.x03] 12 false ].

Definition matches (q : offchainreporting.FilterQuery.t) (l : offchainreporting.Log) : bool :=
  match offchainreporting.FilterQuery.FromBlock q with
  | Some lo => lo <=? offchainreporting.BlockNumber l | None => true end &&
  match offchainreporting.FilterQuery.ToBlock q with
  | Some hi => offchainreporting.BlockNumber l <=? hi | None => true end &&
  existsb (Z.eqb (offchainreporting.Address l)) (offchainreporting.FilterQuery.Addresses q) &&
  match offchainreporting.FilterQuery.Topics q, offchainreporting.Topics l with
  | ts :: _, t0 :: _ => existsb (Z.eqb t0) ts
  | [], _ => true
  | _ :: _, [] => false
  end.

#[export] Instance collaborators : offchainreporting.Collaborators := {|
  offchainreporting.ConfigSetFields := Z;
  offchainreporting.ContractConfig := Z;
  offchainreporting.zeroContractConfig := 0;
  offchainreporting.OCRContractConfigSet := topicConfigSet;
  offchainreporting.OCRContractLatestRoundRequested := topicRoundRequested;
  offchainreporting.ParseConfigSet := parseConfigSet;
  offchainreporting.ParseRoundRequested := parseRoundRequested;
  offchainreporting.ContractConfigFromConfigSetEvent := offchainreporting.ConfigSet.Fields;
  offchainreporting.FilterLogs := fun q => (filter (fun l => matches q l = true) chain, None)
|}.

(** A tracker whose stored round request is (epoch 5, round 3). *)
Definition stored53 : offchainreporting.OffchainAggregatorRoundRequested :=
  offchainreporting.mkRoundRequested 0 [] 5 3 offchainreporting.zeroLog.
Definition tracker53 : offchainreporting.OCRContractTracker :=
  offchainreporting.mkTracker tracked 1 stored53.

(** A broadcast that has not been consumed and whose marking succeeds. *)
Definition fresh_broadcast (raw : offchainreporting.Log) : offchainreporting.Broadcast :=
  offchainreporting.mkBroadcast raw (false, None) None.

(** An unconsumed round request of the tracked contract for the given epoch
    and round, and what it decodes to. *)
Definition candidate (epoch round : Byte.byte) : offchainreporting.Log :=
  chainLog tracked topicRoundRequested [epoch; round] 11 false.
Definition decoded (epoch round : Byte.byte)
  : offchainreporting.OffchainAggregatorRoundRequested :=
  offchainreporting.mkRoundRequested 0 [] (byteZ epoch) (byteZ round)
    (candidate epoch round).

(** Unconsumed logs that [HandleLog] ignores: one without topics, one with
    a topic it does not know, one whose configuration does not decode. *)
Definition bare : offchainreporting.Log :=
  offchainreporting.mkLog tracked [] [Byte.x01] 11 0 0 0 0 false.
Definition foreignTopic : offchainreporting.Log :=
  chainLog tracked 0xddf252ad [Byte.x01] 11 false.
Definition undecodable : offchainreporting.Log :=
  chainLog tracked topicConfigSet [] 11 false.

(** Logs of the tracked contract that a reorganisation has removed. *)
Definition removedRoundRequested : offchainreporting.Log :=
  chainLog tracked topicRoundRequested [Byte.x05; Byte.x04] 11 true.
Definition removedConfigSet : offchainreporting.Log :=
  chainLog tracked topicConfigSet [Byte.x07] 12 true.

(** Collaborators of the selector functions with a stand-in for
    [utils.Keccak256]: 32 bytes made of the bytes of the input, zero padded.
    It is not the hash; it has its length. *)
Definition digest32 (s : string) : list Byte.byte :=
  take 32 (map Ascii.byte_of_ascii (list_ascii_of_string s) ++ replicate 32 Byte.x00).

Definition imports_digest : eth.Imports := {|
  eth.ChainlinkFulfilledTopic := 0x7cc135e0;
  eth.HasHexPrefix := has0xPrefix;
  eth.FromHex := fromHex;
  eth.Keccak256 := fun m s =>
    let '(bs, b) := slice_of_array (eth.bytes m) (digest32 s) in
    (eth.mkMem (eth.hashes m) bs, (b, None))
|}.

(** A contract caller whose configuration last changed in block 12. *)
Definition digest16 : list Byte.byte :=
  [Byte.x01; Byte.x02; Byte.x03; Byte.x04; Byte.x05; Byte.x06; Byte.x07; Byte.x08;
   Byte.x09; Byte.x0a; Byte.x0b; Byte.x0c; Byte.x0d; Byte.x0e; Byte.x0f; Byte.x10].

Definition caller : offchainreporting.ContractCaller := {|
  offchainreporting.caller_LatestConfigDetails :=
    (offchainreporting.ConfigDetails.mk 2 12 digest16, None);
  offchainreporting.BytesToConfigDigest := fun b =>
    if (length b =? 16)%nat then (b, None)
    else (offchainreporting.zeroConfigDigest,
          Some (offchainreporting.External "wrong number of bytes for config digest"))
|}.

(** Logs as the broadcaster delivers them one after another: round requests
    (5,4), (4,9) and (6,4), each unconsumed. *)
Definition deliveries
  : list (offchainreporting.Broadcast * option offchainreporting.error) :=
  [ (fresh_broadcast (candidate Byte.x05 Byte.x04), None);
    (fresh_broadcast (candidate Byte.x04 Byte.x09), None);
    (fresh_broadcast (candidate Byte.x06 Byte.x04), None) ].

End Sample.

(** * Properties *)

(** ** Slices and the store *)

Module GoFacts.
Import Go.

Section Facts.
Context {A : Type}.
Implicit Types (h : gmap loc (list A)) (s t : slice) (l : loc).

Lemma elems_length h s : slice_ok h s -> length (elems h s) = Z.to_nat (len s).
Proof.
  intros (Hoff & Hlen & Hb). unfold elems.
  destruct (base s) as [l|]; simpl.
  - destruct Hb as (arr & -> & Hbound). simpl.
    rewrite length_take, length_drop. lia.
  - lia.
Qed.

Lemma elems_insert_ne h s l arr :
  base s <> Some l -> elems (<[l := arr]> h) s = elems h s.
Proof.
  intros Hne. unfold elems. destruct (base s) as [l'|]; [|done].
  rewrite lookup_insert_ne; [done | congruence].
Qed.

Lemma elems_alter_ne h s l (f : list A -> list A) :
  base s <> Some l -> elems (alter f l h) s = elems h s.
Proof.
  intros Hne. unfold elems. destruct (base s) as [l'|]; [|done].
  rewrite lookup_alter_ne; [done | congruence].
Qed.

(** A slice that is well formed in a store points to an allocated array. *)
Lemma slice_ok_dom h s l : slice_ok h s -> base s = Some l -> l ∈ dom h.
Proof.
  intros (_ & _ & Hb) Hl. rewrite Hl in Hb. destruct Hb as (arr & Harr & _).
  by eapply elem_of_dom_2.
Qed.

(** [t := make(n); copy(t, s)] with [n = len(s)]: [t] shows what [s] does. *)
Lemma elems_make_copy zero h s :
  slice_ok h s ->
  elems (copy (make zero h (len s)).1 (make zero h (len s)).2 s)
        (make zero h (len s)).2 = elems h s.
Proof.
  intros Hok. pose proof (elems_length h s Hok) as Hlen.
  assert (Hfresh : base s <> Some (fresh (dom h))).
  { intros Hb. apply (is_fresh (dom h)). by eapply slice_ok_dom. }
  unfold make, copy; simpl.
  rewrite alter_insert_eq, Z.min_id.
  rewrite (elems_insert_ne h s _ _ Hfresh).
  unfold elems at 1; simpl. rewrite lookup_insert_eq; simpl.
  rewrite drop_0. unfold blit; simpl.
  rewrite (take_ge (elems h s)) by lia.
  rewrite Hlen, drop_ge by (rewrite length_replicate; lia).
  rewrite app_nil_r. apply take_ge. lia.
Qed.

(** ... and every slice of the old store shows what it did. *)
Lemma elems_make_copy_frame zero h s s' :
  slice_ok h s' ->
  elems (copy (make zero h (len s)).1 (make zero h (len s)).2 s) s' = elems h s'.
Proof.
  intros Hok.
  assert (Hfresh : base s' <> Some (fresh (dom h))).
  { intros Hb. apply (is_fresh (dom h)). by eapply slice_ok_dom. }
  unfold make, copy; simpl.
  rewrite alter_insert_eq. by apply elems_insert_ne.
Qed.

(** An assignment through one slice is not seen through a slice on another
    array. *)
Lemma assign_frame h s i v h' s' :
  assign h s i v = Ok h' -> ~ shares_storage s s' -> elems h' s' = elems h s'.
Proof.
  unfold assign. intros Hassign Hsep.
  destruct ((0 <=? i) && (i <? len s)); [|done].
  destruct (base s) as [l|] eqn:Hl; [|done].
  injection Hassign as <-. apply elems_alter_ne.
  intros Hl'. apply Hsep. by exists l.
Qed.

(** An assignment in range goes through. *)
Lemma assign_in_range h s i v :
  slice_ok h s -> 0 <= i < len s -> faults (assign h s i v) = false.
Proof.
  intros (Hoff & Hlen & Hb) Hi. unfold assign.
  replace ((0 <=? i) && (i <? len s)) with true
    by (symmetry; rewrite andb_true_iff, Z.leb_le, Z.ltb_lt; lia).
  destruct (base s); [done | lia].
Qed.

(** A slice expression in range shows the matching part of the elements. *)
Lemma elems_reslice h s lo hi r :
  slice_ok h s -> hi <= len s -> reslice s lo hi = Ok r ->
  elems h r = take (Z.to_nat (hi - lo)) (drop (Z.to_nat lo) (elems h s)).
Proof.
  intros (Hoff & Hlen & Hb) Hhi. unfold reslice.
  destruct ((0 <=? lo) && (lo <=? hi) && (hi <=? cap s)) eqn:Hrange; [|done].
  apply andb_true_iff in Hrange as [Hrange _].
  apply andb_true_iff in Hrange as [Hlo Hlohi].
  intros [= <-]. unfold elems; simpl.
  destruct (base s) as [l|]; [|by rewrite drop_nil, take_nil].
  set (arr := default [] (h !! l)).
  assert (Hlo' : 0 <= lo <= hi) by lia.
  replace (Z.to_nat (len s)) with (Z.to_nat lo + Z.to_nat (len s - lo))%nat by lia.
  rewrite <- take_drop_commute, take_take, drop_drop.
  f_equal; [lia | f_equal; lia].
Qed.
Lemma slice_ok_insert_fresh h s arr :
  slice_ok h s -> slice_ok (<[fresh (dom h) := arr]> h) s.
Proof.
  intros Hok. unfold slice_ok.
  destruct (base s) as [l|] eqn:Hl.
  - assert (Hin : l ∈ dom h) by (by eapply slice_ok_dom).
    destruct Hok as (Hoff & Hlen & Hb). rewrite Hl in Hb.
    destruct Hb as (arr' & Harr & Hbound).
    repeat split; try lia. exists arr'. split; [|done].
    rewrite lookup_insert_ne; [done|].
    intros Heq. subst l. by apply (is_fresh (dom h)).
  - destruct Hok as (Hoff & Hlen & Hb). rewrite Hl in Hb.
    repeat split; lia.
Qed.

Lemma copy_to_fresh zero h s n :
  copy (make zero h n).1 (make zero h n).2 s =
  <[fresh (dom h) :=
      blit 0 (take (Z.to_nat (Z.min n (len s)))
                (elems (<[fresh (dom h) := replicate (Z.to_nat n) zero]> h) s))
           (replicate (Z.to_nat n) zero)]> h.
Proof. unfold make, copy; simpl. by rewrite alter_insert_eq. Qed.

(** What [dup] gives: a slice that reads as the original does, on an array
    of its own, in a store where every older slice reads as before. *)
Lemma dup_spec zero h s :
  slice_ok h s ->
  is_nil (dup zero h s).2 = is_nil s /\
  len (dup zero h s).2 = len s /\
  elems (dup zero h s).1 (dup zero h s).2 = elems h s /\
  slice_ok (dup zero h s).1 (dup zero h s).2 /\
  forall s', slice_ok h s' ->
    elems (dup zero h s).1 s' = elems h s' /\
    slice_ok (dup zero h s).1 s' /\
    ~ shares_storage (dup zero h s).2 s'.
Proof.
  intros Hok. unfold dup, is_nil.
  destruct (base s) as [l|] eqn:Hl; simpl.
  - pose proof (elems_make_copy zero h s Hok) as Hcopy.
    pose proof (elems_length h s Hok) as Hlen.
    pose proof (copy_to_fresh zero h s (len s)) as Hfresh.
    unfold make in Hcopy, Hfresh; simpl in Hcopy, Hfresh.
    destruct Hok as (Hoff & Hlens & Hb).
    split; [done|]. split; [done|]. split; [exact Hcopy|]. split.
    + rewrite Hfresh. unfold slice_ok; simpl.
      split; [lia|]. split; [lia|].
      rewrite lookup_insert_eq. eexists; split; [done|].
      unfold blit.
      rewrite ?length_app, ?length_take, ?length_drop, ?length_take,
        ?length_replicate.
      simpl. lia.
    + intros s' Hok'. split; [|split].
      * by apply (elems_make_copy_frame zero h s s').
      * rewrite Hfresh. by apply slice_ok_insert_fresh.
      * intros (l' & Hl1 & Hl2). simpl in Hl1. injection Hl1 as <-.
        apply (is_fresh (dom h)). by eapply slice_ok_dom.
  - destruct Hok as (Hoff & Hlens & Hb). rewrite Hl in Hb.
    split; [done|]. split; [lia|]. split; [unfold elems; by rewrite Hl|]. split.
    + unfold slice_ok; simpl. lia.
    + intros s' Hok'. split; [done|]. split; [done|].
      by intros (l' & Hl1 & _).
Qed.
(** Writing cell [k] of the array of a slice is seen through the slice at
    [k - off], when the cell is not before its window. *)
Lemma elems_alter_insert h s l arr (k : nat) v :
  slice_ok h s -> base s = Some l -> h !! l = Some arr ->
  (Z.to_nat (off s) <= k)%nat ->
  elems (alter (fun a => <[k := v]> a) l h) s =
  <[(k - Z.to_nat (off s))%nat := v]> (elems h s).
Proof.
  intros Hok Hl Harr Hk. pose proof (elems_length h s Hok) as Hlength.
  unfold elems in *. rewrite Hl in *.
  rewrite lookup_alter_eq, Harr in *. simpl in *.
  rewrite drop_insert_ge by lia. rewrite take_insert. case_decide; [done|].
  rewrite list_insert_ge; [done|]. lia.
Qed.

(** A slice expression within the length goes through, and gives a well
    formed slice on the matching part of the elements. *)
Lemma reslice_ok h s lo hi :
  slice_ok h s -> 0 <= lo <= hi -> hi <= len s ->
  exists r,
    reslice s lo hi = Ok r /\ slice_ok h r /\ len r = hi - lo /\
    elems h r = take (Z.to_nat (hi - lo)) (drop (Z.to_nat lo) (elems h s)).
Proof.
  intros Hok Hlo Hhi. pose proof Hok as (Hoff & Hlen & Hb).
  assert (Hr : reslice s lo hi =
               Ok (mkSlice (base s) (off s + lo) (hi - lo) (cap s - lo))).
  { unfold reslice.
    replace ((0 <=? lo) && (lo <=? hi) && (hi <=? cap s)) with true; [done|].
    symmetry. rewrite !andb_true_iff, !Z.leb_le. lia. }
  eexists. split; [exact Hr|]. split; [|split; [done|]].
  - unfold slice_ok; simpl. split; [lia|]. split; [lia|].
    destruct (base s) as [l|]; [|lia].
    destruct Hb as (arr & Harr & Hbound). exists arr. split; [done|lia].
  - by apply (elems_reslice h s lo hi _ Hok Hhi).
Qed.
End Facts.

End GoFacts.

(** ** Package eth *)

Module eth_props.
Import Go GoFacts eth.

(** [Copy] is [dup] on the topics and on the payload, field by field for
    the rest. *)
Lemma Copy_unfold (m : Mem) (log : Log) :
  Copy m log =
  (mkMem (dup emptyHash (hashes m) (Topics log)).1
         (dup Byte.x00 (bytes m) (Data log)).1,
   mkLog (Address log)
         (dup emptyHash (hashes m) (Topics log)).2
         (dup Byte.x00 (bytes m) (Data log)).2
         (BlockNumber log) (TxHash log) (TxIndex log) (BlockHash log)
         (Index log) (Removed log)).
Proof.
  unfold Copy, dup.
  destruct (negb (is_nil (Topics log))), (negb (is_nil (Data log))); reflexivity.
Qed.

(** C7. For every log whose slices are well formed, [Copy] returns a log that
    reads as the original does in every field, and leaves the original as it
    was; the topics and the payload of the copy are on arrays of their own,
    so an assignment through a slice of the copy is not seen through the
    original's and an assignment through a slice of the original is not seen
    through the copy's. *)
Theorem Copy_is_deep (m : Mem) (log : Log) :
  log_ok m log ->
  let '(m', cpy) := Copy m log in
  same_log m log m' cpy /\
  same_log m log m' log /\
  log_ok m' cpy /\
  independent m log m' cpy.
Proof.
  intros [HokT HokD]. rewrite Copy_unfold.
  destruct (dup_spec emptyHash (hashes m) (Topics log) HokT)
    as (HnilT & HlenT & HelT & HokT' & HframeT).
  destruct (dup_spec Byte.x00 (bytes m) (Data log) HokD)
    as (HnilD & HlenD & HelD & HokD' & HframeD).
  destruct (HframeT _ HokT) as (HsameT & HkeptT & HsepT).
  destruct (HframeD _ HokD) as (HsameD & HkeptD & HsepD).
  set (rt := dup emptyHash (hashes m) (Topics log)) in *.
  set (rd := dup Byte.x00 (bytes m) (Data log)) in *.
  assert (HsepT' : ~ shares_storage (Topics log) rt.2).
  { intros (l & H1 & H2). apply HsepT. by exists l. }
  assert (HsepD' : ~ shares_storage (Data log) rd.2).
  { intros (l & H1 & H2). apply HsepD. by exists l. }
  unfold same_log, log_ok, independent; simpl.
  repeat match goal with |- _ /\ _ => split end; try done.
  - intros i v h Hassign.
    rewrite (assign_frame _ _ _ _ _ _ Hassign HsepT). exact HsameT.
  - intros i v h Hassign.
    rewrite (assign_frame _ _ _ _ _ _ Hassign HsepT'). exact HelT.
  - intros i v h Hassign.
    rewrite (assign_frame _ _ _ _ _ _ Hassign HsepD). exact HsameD.
  - intros i v h Hassign.
    rewrite (assign_frame _ _ _ _ _ _ Hassign HsepD'). exact HelD.
Qed.

(** [Copy_is_deep] on the sample log: its three topics and three payload
    bytes come out on new arrays, and writing 99 over the first topic of the
    copy is seen in the copy alone. *)
Lemma Copy_is_deep_witness :
  let '(m', cpy) := Copy Sample.mem1 Sample.log1 in
  (same_log Sample.mem1 Sample.log1 m' cpy /\
   same_log Sample.mem1 Sample.log1 m' Sample.log1 /\
   log_ok m' cpy /\
   independent Sample.mem1 Sample.log1 m' cpy) /\
  exists h,
    assign (hashes m') (Topics cpy) 0 99 = Ok h /\
    elems h (Topics cpy) = [99; 22; 33] /\
    elems h (Topics Sample.log1) = [11; 22; 33].
Proof.
  assert (Hok : log_ok Sample.mem1 Sample.log1).
  { unfold log_ok, slice_ok; simpl.
    repeat split; try lia; eexists; (split; [reflexivity | simpl; lia]). }
  pose proof (Copy_is_deep Sample.mem1 Sample.log1 Hok) as Hthm.
  destruct (Copy Sample.mem1 Sample.log1) as [m' cpy] eqn:Hcopy.
  split; [exact Hthm|].
  vm_compute in Hcopy. injection Hcopy as <- <-.
  eexists. split; [reflexivity|]. split; reflexivity.
Defined.

(** *** SafeByteSlice *)

Lemma bad_range_iff (n start end_ : Z) :
  (end_ >? n) || (start >? end_) || (start <? 0) || (end_ <? 0) = true <->
  start < 0 \/ end_ < 0 \/ start > end_ \/ end_ > n.
Proof. rewrite !orb_true_iff, !Z.gtb_lt, !Z.ltb_lt. lia. Qed.

(** C4. On a well-formed payload, [SafeByteSlice] over a range with
    [start<0], [end<0], [start>end] or [end>len(payload)] returns the error
    and an empty (nil) slice; over every other range it returns, without
    error and without fault, the slice of the [end-start] elements of the
    payload from position [start]. *)
Theorem SafeByteSlice_spec (h : gmap loc (list byte)) (ary : UntrustedBytes)
    (start end_ : Z) :
  slice_ok h ary ->
  (start < 0 \/ end_ < 0 \/ start > end_ \/ end_ > len ary ->
     SafeByteSlice ary start end_ = Ok (nil_slice, Some ErrOutOfBoundsSlice) /\
     elems h nil_slice = []) /\
  (~ (start < 0 \/ end_ < 0 \/ start > end_ \/ end_ > len ary) ->
     exists r,
       SafeByteSlice ary start end_ = Ok (r, None) /\
       len r = end_ - start /\
       elems h r =
         take (Z.to_nat (end_ - start)) (drop (Z.to_nat start) (elems h ary))).
Proof.
  intros Hok. unfold SafeByteSlice. split.
  - intros Hbad. apply bad_range_iff in Hbad. by rewrite Hbad.
  - intros Hgood.
    destruct ((end_ >? len ary) || (start >? end_) || (start <? 0) || (end_ <? 0))
      eqn:Hcond.
    { exfalso. apply Hgood. by apply bad_range_iff. }
    pose proof Hok as (Hoff & Hlen & _).
    destruct (reslice ary start end_) as [r|p] eqn:Hr.
    + exists r. split; [done|]. split.
      * unfold reslice in Hr.
        destruct ((0 <=? start) && (start <=? end_) && (end_ <=? cap ary)); [|done].
        by injection Hr as <-.
      * apply (elems_reslice h ary start end_ r Hok); [lia | done].
    + exfalso. unfold reslice in Hr.
      replace ((0 <=? start) && (start <=? end_) && (end_ <=? cap ary)) with true in Hr;
        [done|].
      symmetry. rewrite !andb_true_iff, !Z.leb_le. lia.
Qed.

(** [SafeByteSlice_spec] on the sample payload: [1:3] is in range, [1:4] is
    not. *)
Lemma SafeByteSlice_spec_witness :
  (exists r,
     SafeByteSlice (Data Sample.log1) 1 3 = Ok (r, None) /\
     len r = 3 - 1 /\
     elems (bytes Sample.mem1) r =
       take (Z.to_nat (3 - 1))
         (drop (Z.to_nat 1) (elems (bytes Sample.mem1) (Data Sample.log1)))) /\
  SafeByteSlice (Data Sample.log1) 1 4 = Ok (nil_slice, Some ErrOutOfBoundsSlice).
Proof.
  assert (Hok : slice_ok (bytes Sample.mem1) (Data Sample.log1)).
  { unfold slice_ok; simpl.
    repeat split; try lia. eexists; split; [reflexivity | simpl; lia]. }
  split.
  - apply (SafeByteSlice_spec (bytes Sample.mem1) (Data Sample.log1) 1 3 Hok).
    simpl. lia.
  - apply (SafeByteSlice_spec (bytes Sample.mem1) (Data Sample.log1) 1 4 Hok).
    simpl. lia.
Defined.

(** *** Topics *)

(** Below 2^63 the conversion [int(idx)] keeps the index, and an index at or
    past the number of topics gets the error. *)
Lemma GetTopic_reports (m : Mem) (log : Log) (idx : Z) :
  0 <= idx < 2 ^ 63 -> len (Topics log) <= idx ->
  GetTopic m log idx = Ok (emptyHash, Some (ErrGetTopic idx log)).
Proof.
  intros Hidx Hlen. unfold GetTopic, int_of_uint.
  rewrite Z.mod_small by lia.
  replace (len (Topics log) <=? idx + 2 ^ 63 - 2 ^ 63) with true; [done|].
  symmetry. apply Z.leb_le. lia.
Qed.

(** An index inside the topics is read. *)
Lemma GetTopic_reads (m : Mem) (log : Log) (idx : Z) :
  slice_ok (hashes m) (Topics log) -> len (Topics log) < 2 ^ 63 ->
  0 <= idx < len (Topics log) ->
  exists t, GetTopic m log idx = Ok (t, None) /\
            elems (hashes m) (Topics log) !! Z.to_nat idx = Some t.
Proof.
  intros Hok Hint Hidx. unfold GetTopic, int_of_uint.
  rewrite Z.mod_small by lia.
  replace (len (Topics log) <=? idx + 2 ^ 63 - 2 ^ 63) with false
    by (symmetry; apply Z.leb_gt; lia).
  unfold index.
  replace ((0 <=? idx) && (idx <? len (Topics log))) with true
    by (symmetry; rewrite andb_true_iff, Z.leb_le, Z.ltb_lt; lia).
  destruct (elems (hashes m) (Topics log) !! Z.to_nat idx) as [t|] eqn:Ht.
  - by exists t.
  - apply lookup_ge_None in Ht. rewrite (elems_length _ _ Hok) in Ht. lia.
Qed.

(** From 2^63 on, [int(idx)] is negative: the length test passes and
    [log.Topics[idx]] is out of range. *)
Lemma GetTopic_faults_past_int (m : Mem) (log : Log) (idx : Z) :
  0 <= len (Topics log) < 2 ^ 63 -> 2 ^ 63 <= idx < 2 ^ 64 ->
  GetTopic m log idx = Panic IndexOutOfRange.
Proof.
  intros Hlen Hidx. unfold GetTopic, int_of_uint.
  replace ((idx + 2 ^ 63) mod 2 ^ 64) with (idx - 2 ^ 63).
  2:{ apply (Z.mod_unique _ _ 1); lia. }
  replace (len (Topics log) <=? idx - 2 ^ 63 - 2 ^ 63) with false
    by (symmetry; apply Z.leb_gt; lia).
  unfold index.
  replace ((0 <=? idx) && (idx <? len (Topics log))) with false; [done|].
  symmetry. apply andb_false_iff. right. apply Z.ltb_ge. lia.
Qed.

(** [GetTopic_reports] on the sample log, which has three topics. *)
Lemma GetTopic_reports_witness :
  GetTopic Sample.mem1 Sample.log1 3 =
  Ok (emptyHash, Some (ErrGetTopic 3 Sample.log1)).
Proof. apply (GetTopic_reports Sample.mem1 Sample.log1 3); simpl; lia. Defined.

(** On a receipt whose logs all have a topic, [FulfilledRunLog] does not
    fault and answers whether some log has the fulfilment topic first. *)
Lemma FulfilledRunLog_with_topics `{Imports} (m : Mem) (txr : TxReceipt.t) :
  Forall (fun log => slice_ok (hashes m) (Topics log) /\ 0 < len (Topics log))
         (TxReceipt.Logs txr) ->
  exists b,
    FulfilledRunLog m txr = Ok b /\
    (b = true <->
     Exists (fun log => head (elems (hashes m) (Topics log)) =
                        Some ChainlinkFulfilledTopic)
            (TxReceipt.Logs txr)).
Proof.
  unfold FulfilledRunLog. induction (TxReceipt.Logs txr) as [|log logs IH].
  - intros _. exists false. split; [done|]. split; [done|].
    intros Hex. by apply Exists_nil in Hex.
  - intros Hall. apply Forall_cons in Hall as [[Hok Hlen] Hall].
    destruct (IH Hall) as (b & Hrest & Hiff). simpl.
    unfold index.
    replace ((0 <=? 0) && (0 <? len (Topics log))) with true
      by (symmetry; rewrite andb_true_iff, Z.leb_le, Z.ltb_lt; lia).
    pose proof (elems_length _ _ Hok) as Hlength.
    destruct (elems (hashes m) (Topics log)) as [|t0 ts] eqn:Helems;
      [simpl in Hlength; lia|].
    simpl. destruct (t0 =? ChainlinkFulfilledTopic) eqn:Ht0.
    + exists true. split; [done|]. split; [|done].
      intros _. apply Exists_cons_hd. rewrite Helems. simpl.
      apply Z.eqb_eq in Ht0. by rewrite Ht0.
    + exists b. split; [done|]. rewrite Hiff, Exists_cons. split; [tauto|].
      intros [Hhead|Hex]; [|done].
      rewrite Helems in Hhead. simpl in Hhead. injection Hhead as ->.
      by rewrite Z.eqb_refl in Ht0.
Qed.

(** [FulfilledRunLog_with_topics] on the receipt of the sample log, whose
    first topic is not the fulfilment topic. *)
Lemma FulfilledRunLog_with_topics_witness :
  exists b,
    FulfilledRunLog (H := Sample.imports) Sample.mem1 Sample.receipt1 = Ok b /\
    (b = true <->
     Exists (fun log => head (elems (hashes Sample.mem1) (Topics log)) =
                        Some (ChainlinkFulfilledTopic (Imports := Sample.imports)))
            (TxReceipt.Logs Sample.receipt1)).
Proof.
  apply (FulfilledRunLog_with_topics (H := Sample.imports) Sample.mem1 Sample.receipt1).
  apply Forall_cons_2; [|apply Forall_nil_2].
  unfold slice_ok; simpl. split; [|lia].
  repeat split; try lia. eexists. split; [reflexivity | simpl; lia].
Defined.

(** C3. [FulfilledRunLog] reads [log.Topics[0]] of each log it reaches with
    no test of the length: on a receipt whose first log has no topics it
    faults with an index out of range. *)
Theorem FulfilledRunLog_faults_without_topics `{Imports} (m : Mem)
    (txr : TxReceipt.t) (log : Log) (rest : list Log) :
  TxReceipt.Logs txr = log :: rest -> len (Topics log) <= 0 ->
  FulfilledRunLog m txr = Panic IndexOutOfRange.
Proof.
  intros Hlogs Hlen. unfold FulfilledRunLog. rewrite Hlogs. simpl.
  unfold index.
  replace ((0 <=? 0) && (0 <? len (Topics log))) with false; [done|].
  symmetry. apply andb_false_iff. right. apply Z.ltb_ge. lia.
Qed.

(** [FulfilledRunLog_faults_without_topics] on the sample receipt. *)
Lemma FulfilledRunLog_faults_without_topics_witness :
  FulfilledRunLog (H := Sample.imports) Sample.mem1 Sample.bareReceipt =
  Panic IndexOutOfRange.
Proof.
  apply (FulfilledRunLog_faults_without_topics (H := Sample.imports)
           Sample.mem1 Sample.bareReceipt Sample.bareLog []).
  - reflexivity.
  - simpl. lia.
Defined.

(** *** Function selectors *)

(** What [Value] stores shows the selector. *)
Lemma elems_Value (m : Mem) (x : FunctionSelector) :
  exists b, Value m x = (mkMem (hashes m) (slice_of_array (bytes m) x).1, (IBytes b, None)) /\
            b = (slice_of_array (bytes m) x).2 /\
            len b = Z.of_nat (length x) /\
            elems (slice_of_array (bytes m) x).1 b = x.
Proof.
  eexists. split; [reflexivity|]. split; [reflexivity|]. split; [reflexivity|].
  unfold slice_of_array, elems; simpl.
  rewrite lookup_insert_eq; simpl. rewrite drop_0, Nat2Z.id. by apply take_ge.
Qed.

Lemma copy_into_array_full {A} (a src : list A) :
  length src = length a -> copy_into_array a src = src.
Proof.
  intros Hlen. unfold copy_into_array, blit; simpl.
  rewrite take_ge by lia. rewrite drop_ge by lia. apply app_nil_r.
Qed.

(** A stored value of another length than 4 is an error. *)
Lemma Scan_rejects_other_lengths (m : Mem) (f : FunctionSelector) (temp : slice) :
  len temp <> FunctionSelectorLength ->
  Scan m f (IBytes temp) =
  (f, Some (ErrScanLength temp FunctionSelectorLength (len temp))).
Proof.
  intros Hlen. unfold Scan, value_receiver, Scan_body.
  apply Z.eqb_neq in Hlen. by rewrite Hlen.
Qed.

(** [Scan_rejects_other_lengths] on a stored value of three bytes. *)
Lemma Scan_rejects_other_lengths_witness :
  Scan Sample.mem1 zeroSelector (IBytes (Data Sample.log1)) =
  (zeroSelector, Some (ErrScanLength (Data Sample.log1) 4 3)).
Proof.
  apply (Scan_rejects_other_lengths Sample.mem1 zeroSelector (Data Sample.log1)).
  discriminate.
Defined.

(** Whatever the stored value, the selector [Scan] is called on is the same
    after the call. *)
Lemma Scan_receiver (m : Mem) (f : FunctionSelector) (value : iface) :
  (Scan m f value).1 = f.
Proof. reflexivity. Qed.

(** C2. [Scan] on the stored serialization of a selector [x] reports no
    error and the body copies the four bytes of [x] into its receiver; the
    receiver is the method's own copy, so the selector [f] that [Scan] was
    called on is [f] still, not [x]. *)
Theorem Scan_does_not_yield_the_selector (m : Mem) (x f : FunctionSelector) :
  length x = 4%nat -> length f = 4%nat ->
  let '(m', (v, err)) := Value m x in
  err = None /\ Scan_body m' v f = (x, None) /\ Scan m' f v = (f, None).
Proof.
  intros Hx Hf.
  destruct (elems_Value m x) as (b & -> & Hb & Hlen & Helems).
  split; [done|].
  assert (Hbody : Scan_body (mkMem (hashes m) (slice_of_array (bytes m) x).1)
                    (IBytes b) f = (x, None)).
  { unfold Scan_body. rewrite Hlen, Hx.
    change (negb (Z.of_nat 4 =? FunctionSelectorLength)) with false.
    cbn [bytes]. rewrite Helems.
    rewrite copy_into_array_full by lia. done. }
  split; [exact Hbody|].
  unfold Scan, value_receiver. by rewrite Hbody.
Qed.

(** [Scan_does_not_yield_the_selector] for the selector 01 02 03 04 and a
    zero receiver. *)
Lemma Scan_does_not_yield_the_selector_witness :
  let '(m', (v, err)) := Value Sample.emptyMem Sample.sel1234 in
  err = None /\ Scan_body m' v zeroSelector = (Sample.sel1234, None) /\
  Scan m' zeroSelector v = (zeroSelector, None).
Proof.
  apply (Scan_does_not_yield_the_selector Sample.emptyMem Sample.sel1234
           zeroSelector); reflexivity.
Defined.

Lemma reslice_short (b : slice) : cap b < 4 -> reslice b 0 4 = Panic SliceBoundsOutOfRange.
Proof.
  intros Hcap. unfold reslice.
  replace (4 <=? cap b) with false by (symmetry; apply Z.leb_gt; lia).
  by rewrite andb_false_r.
Qed.

(** C9. The constructors fault on short input: [BytesToFunctionSelector]
    faults in [b[:4]] exactly when the capacity of [b] is below 4, so on
    every slice of fewer than 4 bytes with no spare capacity, the nil slice
    among them, and so does [HexToFunctionSelector] when the decoded bytes
    come in such a slice; [unmarshalFromString] on a prefixed string that
    does not decode to 4 bytes returns an error and leaves the selector. *)
Theorem selector_constructors_fault_on_short_input `{Imports} (m : Mem) :
  (forall b, cap b < 4 ->
     BytesToFunctionSelector m b = Panic SliceBoundsOutOfRange) /\
  (forall b, 4 <= cap b -> faults (BytesToFunctionSelector m b) = false) /\
  (forall s, cap (FromHex m s).2 < 4 ->
     HexToFunctionSelector m s = Panic SliceBoundsOutOfRange) /\
  (forall s f, HasHexPrefix s = true -> (2 <= String.length s)%nat ->
     len (FromHex m s).2 <> 4 ->
     unmarshalFromString m s f =
     Ok (f, Some (if hexRegexp_Match (String.substring 2 (String.length s - 2) s)
                  then ErrFunctionIDLength else ErrMustBeHex s))) /\
  (exists b, len b < 4 /\
     BytesToFunctionSelector m b = Panic SliceBoundsOutOfRange).
Proof.
  assert (Hshort : forall m' b, cap b < 4 ->
            BytesToFunctionSelector m' b = Panic SliceBoundsOutOfRange).
  { intros m' b Hcap. unfold BytesToFunctionSelector, SetBytes, FunctionSelectorLength.
    by rewrite (reslice_short b Hcap). }
  split; [apply Hshort|]. split; [|split; [|split]].
  - intros b Hcap. unfold BytesToFunctionSelector, SetBytes, FunctionSelectorLength, reslice.
    replace (4 <=? cap b) with true by (symmetry; apply Z.leb_le; lia).
    reflexivity.
  - intros s Hcap. unfold HexToFunctionSelector.
    destruct (FromHex m s) as [m' b]. by apply Hshort.
  - intros s f Hprefix Hlen Hbytes. unfold unmarshalFromString, string_from.
    rewrite Hprefix.
    replace (2 <=? String.length s)%nat with true
      by (symmetry; apply Nat.leb_le; lia).
    simpl.
    destruct (hexRegexp_Match (String.substring 2 (String.length s - 2) s));
      simpl; [|done].
    destruct (FromHex m s) as [m' b]. simpl in Hbytes.
    apply Z.eqb_neq in Hbytes. unfold FunctionSelectorLength. by rewrite Hbytes.
  - exists nil_slice. split; [simpl; lia|]. apply Hshort. simpl. lia.
Qed.

(** [selector_constructors_fault_on_short_input] with a hexadecimal
    decoder: the empty hexadecimal string faults the constructor, and two
    bytes are an error for [unmarshalFromString]. *)
Lemma selector_constructors_fault_on_short_input_witness :
  HexToFunctionSelector (H := Sample.imports) Sample.emptyMem "0x" =
    Panic SliceBoundsOutOfRange /\
  unmarshalFromString (H := Sample.imports) Sample.emptyMem "0x1234" zeroSelector =
    Ok (zeroSelector, Some ErrFunctionIDLength).
Proof.
  pose proof (selector_constructors_fault_on_short_input
                (H := Sample.imports) Sample.emptyMem)
    as (_ & _ & Hhex & Hunmarshal & _).
  split.
  - apply Hhex. vm_compute. reflexivity.
  - apply (Hunmarshal "0x1234"%string zeroSelector).
    + reflexivity.
    + simpl. lia.
    + vm_compute. discriminate.
Defined.

(** *** Further properties of the payload and the selector *)

Lemma SafeByteSlice_in_range (ary : UntrustedBytes) (start end_ : Z) :
  0 <= len ary <= cap ary -> 0 <= start <= end_ -> end_ <= len ary ->
  SafeByteSlice ary start end_ =
  Ok (mkSlice (base ary) (off ary + start) (end_ - start) (cap ary - start), None).
Proof.
  intros Hlen Hstart Hend. unfold SafeByteSlice, reslice.
  replace ((end_ >? len ary) || (start >? end_) || (start <? 0) || (end_ <? 0))
    with false.
  2:{ symmetry. apply not_true_iff_false. rewrite bad_range_iff. lia. }
  replace ((0 <=? start) && (start <=? end_) && (end_ <=? cap ary)) with true;
    [done|].
  symmetry. rewrite !andb_true_iff, !Z.leb_le. lia.
Qed.

Lemma SafeByteSlice_Ok_inv (ary : UntrustedBytes) (start end_ : Z) (r : slice) :
  0 <= len ary <= cap ary ->
  SafeByteSlice ary start end_ = Ok (r, None) ->
  0 <= start <= end_ /\ end_ <= len ary /\
  r = mkSlice (base ary) (off ary + start) (end_ - start) (cap ary - start).
Proof.
  intros Hlen Hr.
  destruct (decide (start < 0 \/ end_ < 0 \/ start > end_ \/ end_ > len ary))
    as [Hbad|Hgood].
  - apply bad_range_iff in Hbad. unfold SafeByteSlice in Hr. by rewrite Hbad in Hr.
  - rewrite SafeByteSlice_in_range in Hr by lia. injection Hr as <-.
    split; [lia|]. split; [lia|done].
Qed.

(** Slicing what [SafeByteSlice] returned is slicing the payload with the
    bounds shifted by the first start. *)
Theorem SafeByteSlice_composes (ary : UntrustedBytes) (a b c d : Z) :
  0 <= len ary <= cap ary -> 0 <= a <= b -> b <= len ary ->
  0 <= c <= d -> d <= b - a ->
  exists r,
    SafeByteSlice ary a b = Ok (r, None) /\
    SafeByteSlice r c d = SafeByteSlice ary (a + c) (a + d).
Proof.
  intros Hlen Hab Hb Hcd Hd. eexists. split.
  - by apply SafeByteSlice_in_range.
  - rewrite !SafeByteSlice_in_range by (simpl; lia). simpl.
    do 2 f_equal. f_equal; lia.
Qed.

(** [SafeByteSlice_composes] on the sample payload: [1:3] then [1:2] is
    [2:3]. *)
Lemma SafeByteSlice_composes_witness :
  exists r,
    SafeByteSlice (Data Sample.log1) 1 3 = Ok (r, None) /\
    SafeByteSlice r 1 2 = SafeByteSlice (Data Sample.log1) (1 + 1) (1 + 2).
Proof.
  apply (SafeByteSlice_composes (Data Sample.log1) 1 3 1 2); simpl; lia.
Defined.

(** What [SafeByteSlice] returns is a window on the array of the payload,
    not a copy: an assignment through it at [i] is seen in the payload at
    [start + i]. *)
Theorem SafeByteSlice_is_a_window (h : gmap loc (list byte)) (ary : UntrustedBytes)
    (start end_ : Z) (r : slice) (i : Z) (v : byte) (h' : gmap loc (list byte)) :
  slice_ok h ary ->
  SafeByteSlice ary start end_ = Ok (r, None) ->
  assign h r i v = Ok h' ->
  shares_storage r ary /\
  elems h' ary = <[Z.to_nat (start + i) := v]> (elems h ary).
Proof.
  intros Hok Hr Hassign. pose proof Hok as (Hoff & Hlen & Hb).
  apply SafeByteSlice_Ok_inv in Hr as (Hstart & Hend & ->); [|done].
  unfold assign in Hassign; simpl in Hassign.
  destruct ((0 <=? i) && (i <? end_ - start)) eqn:Hi; [|done].
  apply andb_true_iff in Hi as [Hi0 Hi1].
  apply Z.leb_le in Hi0. apply Z.ltb_lt in Hi1.
  destruct (base ary) as [l|] eqn:Hl; [|done].
  destruct Hb as (arr & Harr & Hbound). injection Hassign as <-.
  split; [by exists l|].
  rewrite (elems_alter_insert h ary l arr _ v Hok Hl Harr) by lia.
  f_equal. lia.
Qed.

(** [SafeByteSlice_is_a_window] on the sample payload 0b 0c 0d: writing ff
    at 0 of [1:3] makes it 0b ff 0d. *)
Lemma SafeByteSlice_is_a_window_witness :
  exists r h',
    SafeByteSlice (Data Sample.log1) 1 3 = Ok (r, None) /\
    assign (bytes Sample.mem1) r 0 Byte.xff = Ok h' /\
    elems h' (Data Sample.log1) = [Byte.x0b; Byte.xff; Byte.x0d].
Proof.
  assert (Hok : slice_ok (bytes Sample.mem1) (Data Sample.log1)).
  { unfold slice_ok; simpl.
    repeat split; try lia. eexists; split; [reflexivity | simpl; lia]. }
  eexists _, _. split; [reflexivity|]. split; [reflexivity|].
  apply (SafeByteSlice_is_a_window (bytes Sample.mem1) (Data Sample.log1) 1 3
           _ 0 Byte.xff _ Hok eq_refl eq_refl).
Defined.

(** Every selector comes back from its bytes. *)
Theorem BytesToFunctionSelector_of_Bytes (m : Mem) (f : FunctionSelector) :
  length f = 4%nat ->
  let '(m', b) := Bytes m f in
  BytesToFunctionSelector m' b = Ok f.
Proof.
  intros Hf. unfold Bytes.
  destruct (elems_Value m f) as (b0 & _ & Hb0 & _ & Helems).
  destruct (slice_of_array (bytes m) f) as [bs b] eqn:Hslice.
  simpl in Hb0, Helems. subst b0.
  assert (Hb : b = mkSlice (base b) 0 4 4).
  { unfold slice_of_array in Hslice. injection Hslice as _ <-. simpl.
    by rewrite Hf. }
  assert (Hre : reslice b 0 FunctionSelectorLength = Ok b)
    by (rewrite Hb; reflexivity).
  unfold BytesToFunctionSelector, SetBytes. rewrite Hre. simpl.
  rewrite Helems. by rewrite copy_into_array_full.
Qed.

(** [BytesToFunctionSelector_of_Bytes] for the selector 01 02 03 04. *)
Lemma BytesToFunctionSelector_of_Bytes_witness :
  let '(m', b) := Bytes Sample.emptyMem Sample.sel1234 in
  BytesToFunctionSelector m' b = Ok Sample.sel1234.
Proof.
  apply (BytesToFunctionSelector_of_Bytes Sample.emptyMem Sample.sel1234).
  reflexivity.
Defined.

(** With a capacity of 4 or more, [BytesToFunctionSelector] gives the four
    cells of the backing array from the start of the slice: the first four
    bytes of a slice that has them, and bytes past the end of a shorter
    one. *)
Theorem BytesToFunctionSelector_takes_four_cells (m : Mem) (b : slice) (l : loc)
    (arr : list byte) :
  slice_ok (bytes m) b -> base b = Some l -> bytes m !! l = Some arr ->
  4 <= cap b ->
  BytesToFunctionSelector m b = Ok (take 4 (drop (Z.to_nat (off b)) arr)) /\
  (4 <= len b -> BytesToFunctionSelector m b = Ok (take 4 (elems (bytes m) b))).
Proof.
  intros (Hoff & Hlen & Hb) Hl Harr Hcap.
  rewrite Hl in Hb. destruct Hb as (arr' & Harr' & Hbound).
  assert (arr' = arr) as -> by congruence.
  assert (Hfour : BytesToFunctionSelector m b =
                  Ok (take 4 (drop (Z.to_nat (off b)) arr))).
  { unfold BytesToFunctionSelector, SetBytes, reslice, FunctionSelectorLength.
    replace ((0 <=? 0) && (0 <=? 4) && (4 <=? cap b)) with true
      by (symmetry; rewrite !andb_true_iff, !Z.leb_le; lia).
    simpl. unfold elems; simpl. rewrite Hl, Harr; simpl.
    replace (Z.to_nat (off b + 0)) with (Z.to_nat (off b)) by lia.
    change (Pos.to_nat 4) with 4%nat.
    rewrite copy_into_array_full; [done|].
    rewrite length_take, length_drop.
    change (length zeroSelector) with 4%nat. lia. }
  split; [exact Hfour|].
  intros Hlen4. rewrite Hfour. unfold elems. rewrite Hl, Harr; simpl.
  rewrite take_take. do 2 f_equal. lia.
Qed.

(** [BytesToFunctionSelector_takes_four_cells] on the sample payload, three
    bytes 0b 0c 0d with a capacity of four: the selector ends in 0e, the
    byte after the payload. *)
Lemma BytesToFunctionSelector_takes_four_cells_witness :
  elems (bytes Sample.mem1) (Data Sample.log1) = [Byte.x0b; Byte.x0c; Byte.x0d] /\
  BytesToFunctionSelector Sample.mem1 (Data Sample.log1) =
  Ok [Byte.x0b; Byte.x0c; Byte.x0d; Byte.x0e].
Proof.
  split; [reflexivity|].
  apply (BytesToFunctionSelector_takes_four_cells Sample.mem1 (Data Sample.log1)
           1%positive
           [Byte.x0a; Byte.x0b; Byte.x0c; Byte.x0d; Byte.x0e]).
  - unfold slice_ok; simpl.
    repeat split; try lia. eexists; split; [reflexivity | simpl; lia].
  - reflexivity.
  - reflexivity.
  - simpl. lia.
Defined.

(** [SetBytes] from a slice of four bytes or more takes the first four. *)
Lemma SetBytes_takes_four (m : Mem) (f : FunctionSelector) (b : slice) :
  slice_ok (bytes m) b -> 4 <= len b -> length f = 4%nat ->
  SetBytes m f b = Ok (take 4 (elems (bytes m) b)).
Proof.
  intros Hok Hlen Hf.
  destruct (reslice_ok (bytes m) b 0 4 Hok) as (r & Hr & _ & _ & Helems);
    [lia | lia |].
  unfold SetBytes, FunctionSelectorLength. rewrite Hr. simpl.
  rewrite Helems. simpl. rewrite drop_0.
  rewrite copy_into_array_full; [done|].
  rewrite length_take, (elems_length _ _ Hok). lia.
Qed.

(** On a string with the hexadecimal prefix, [unmarshalFromString] does not
    fault: digits that are not hexadecimal and a decoding of another length
    than 4 are errors that leave the selector, and four decoded bytes become
    the selector. *)
Theorem unmarshalFromString_hex `{Imports} (m : Mem) (s : string)
    (f : FunctionSelector) :
  HasHexPrefix s = true -> (2 <= String.length s)%nat -> length f = 4%nat ->
  slice_ok (bytes (FromHex m s).1) (FromHex m s).2 ->
  unmarshalFromString m s f =
  Ok (if negb (hexRegexp_Match (String.substring 2 (String.length s - 2) s))
      then (f, Some (ErrMustBeHex s))
      else if negb (len (FromHex m s).2 =? 4)
      then (f, Some ErrFunctionIDLength)
      else (elems (bytes (FromHex m s).1) (FromHex m s).2, None)).
Proof.
  intros Hprefix Hlen Hf Hok. unfold unmarshalFromString, string_from.
  rewrite Hprefix.
  replace (2 <=? String.length s)%nat with true
    by (symmetry; apply Nat.leb_le; lia).
  simpl.
  destruct (negb (hexRegexp_Match (String.substring 2 (String.length s - 2) s)));
    [done|].
  destruct (FromHex m s) as [m' b]. simpl in Hok |- *.
  unfold FunctionSelectorLength.
  destruct (len b =? 4) eqn:Hb; simpl; [|done].
  apply Z.eqb_eq in Hb.
  pose proof (elems_length _ _ Hok) as Hlength.
  rewrite (SetBytes_takes_four m' f b Hok) by lia. simpl.
  rewrite take_ge by lia. done.
Qed.

(** [unmarshalFromString_hex] with a hexadecimal decoder, on 0x12345678. *)
Lemma unmarshalFromString_hex_witness :
  unmarshalFromString (H := Sample.imports) Sample.emptyMem "0x12345678"
    zeroSelector =
  Ok ([Byte.x12; Byte.x34; Byte.x56; Byte.x78], None).
Proof.
  apply (unmarshalFromString_hex (H := Sample.imports) Sample.emptyMem
           "0x12345678" zeroSelector).
  - reflexivity.
  - simpl. lia.
  - reflexivity.
  - unfold slice_ok; simpl.
    repeat split; try lia. eexists; split; [reflexivity | simpl; lia].
Defined.

(** On a string without the prefix, [unmarshalFromString] takes the
    selector from the hash of the string: its first four bytes when the
    hash has at least four, and the error of the hash function, with the
    selector left as it was, when it fails. *)
Theorem unmarshalFromString_signature `{Imports} (m : Mem) (s : string)
    (f : FunctionSelector) (m' : Mem) (b : slice) :
  HasHexPrefix s = false ->
  (forall e, Keccak256 m s = (m', (b, Some e)) ->
     unmarshalFromString m s f = Ok (f, Some e)) /\
  (Keccak256 m s = (m', (b, None)) ->
   slice_ok (bytes m') b -> 4 <= len b -> length f = 4%nat ->
   unmarshalFromString m s f = Ok (take 4 (elems (bytes m') b), None)).
Proof.
  intros Hprefix. unfold unmarshalFromString. rewrite Hprefix. split.
  - intros e Hhash. by rewrite Hhash.
  - intros Hhash Hok Hlen Hf. rewrite Hhash.
    destruct (reslice_ok (bytes m') b 0 4 Hok) as (r & Hr & Hokr & Hlenr & Helems);
      [lia | lia |].
    rewrite Hr. simpl.
    rewrite (SetBytes_takes_four m' f r Hokr) by lia. simpl.
    rewrite Helems. simpl. by rewrite drop_0, take_take.
Qed.

(** [unmarshalFromString_signature] with the 32-byte stand-in for the hash,
    on a function signature. *)
Lemma unmarshalFromString_signature_witness :
  unmarshalFromString (H := Sample.imports_digest) Sample.emptyMem
    "fulfill(bytes32)" zeroSelector =
  Ok (take 4 (Sample.digest32 "fulfill(bytes32)"), None).
Proof.
  pose proof (unmarshalFromString_signature (H := Sample.imports_digest)
                Sample.emptyMem "fulfill(bytes32)" zeroSelector
                (Keccak256 (Imports := Sample.imports_digest) Sample.emptyMem
                   "fulfill(bytes32)").1
                (Keccak256 (Imports := Sample.imports_digest) Sample.emptyMem
                   "fulfill(bytes32)").2.1 eq_refl) as (_ & Hhash).
  apply Hhash.
  - reflexivity.
  - unfold slice_ok; simpl.
    repeat split; try lia. eexists; split; [reflexivity | simpl; lia].
  - simpl. lia.
  - reflexivity.
Defined.

(** A topic inside the log is read the same from a copy of the log as from
    the log. *)
Theorem GetTopic_of_Copy (m : Mem) (log : Log) (idx : Z) :
  log_ok m log -> len (Topics log) < 2 ^ 63 -> 0 <= idx < len (Topics log) ->
  let '(m', cpy) := Copy m log in
  exists t,
    GetTopic m log idx = Ok (t, None) /\ GetTopic m' cpy idx = Ok (t, None).
Proof.
  intros [HokT HokD] Hint Hidx. rewrite Copy_unfold.
  destruct (dup_spec emptyHash (hashes m) (Topics log) HokT)
    as (_ & HlenT & HelT & HokT' & _).
  destruct (GetTopic_reads m log idx HokT Hint Hidx) as (t & Hread & Hlookup).
  exists t. split; [exact Hread|].
  set (m' := mkMem (dup emptyHash (hashes m) (Topics log)).1
                   (dup Byte.x00 (bytes m) (Data log)).1).
  set (cpy := mkLog _ _ _ _ _ _ _ _ _).
  destruct (GetTopic_reads m' cpy idx) as (t' & Hread' & Hlookup').
  - exact HokT'.
  - simpl. lia.
  - simpl. lia.
  - rewrite Hread'. simpl in Hlookup'. rewrite HelT in Hlookup'. congruence.
Qed.

(** [GetTopic_of_Copy] on the sample log: topic 1 is 22 in both. *)
Lemma GetTopic_of_Copy_witness :
  let '(m', cpy) := Copy Sample.mem1 Sample.log1 in
  exists t,
    GetTopic Sample.mem1 Sample.log1 1 = Ok (t, None) /\
    GetTopic m' cpy 1 = Ok (t, None).
Proof.
  apply (GetTopic_of_Copy Sample.mem1 Sample.log1 1).
  - unfold log_ok, slice_ok; simpl.
    repeat split; try lia; eexists; (split; [reflexivity | simpl; lia]).
  - simpl. lia.
  - simpl. lia.
Defined.

End eth_props.

(** ** Package offchainreporting *)

Module tracker_props.
Import Go offchainreporting.

Ltac unfold_method :=
  unfold HandleLog, HandleLog_body, ConfigFromLogs, ConfigFromLogs_body,
    bind, call, pure, ret, this, at_index, store_latestRoundRequested.

Section HandleLog.
Context `{Collaborators}.
Implicit Types (t : OCRContractTracker) (lb : Broadcast).

(** A prior error ends the call at once. *)
Lemma HandleLog_prior_error t lb e :
  HandleLog t lb (Some e) =
  (Return tt, t,
   [Errorw "OCRContract: error in previous LogListener" (Some e)]).
Proof. reflexivity. Qed.

(** A failing consumption query ends it after the query. *)
Lemma HandleLog_query_error t lb was e :
  WasAlreadyConsumed lb = (was, Some e) ->
  HandleLog t lb None =
  (Return tt, t,
   [CallWasAlreadyConsumed;
    Errorw "OCRContract: could not determine if log was already consumed" (Some e)]).
Proof. intros Hwas. unfold_method. by rewrite Hwas. Qed.

Lemma HandleLog_consumed t lb :
  WasAlreadyConsumed lb = (true, None) ->
  HandleLog t lb None = (Return tt, t, [CallWasAlreadyConsumed]).
Proof. intros Hwas. unfold_method. by rewrite Hwas. Qed.

Lemma HandleLog_no_topics t lb :
  WasAlreadyConsumed lb = (false, None) -> Topics (RawLog lb) = [] ->
  HandleLog t lb None = (Return tt, t, [CallWasAlreadyConsumed]).
Proof. intros Hwas Htopics. unfold_method. by rewrite Hwas, Htopics. Qed.

Lemma marks_consumed_marking lb calls :
  marks_consumed (calls ++ (marking lb).2) = true.
Proof.
  unfold marks_consumed, marking. rewrite existsb_app.
  destruct (MarkConsumed lb); simpl; apply orb_true_r.
Qed.

(** An unrecognized first topic goes through the dispatch to the marking. *)
Lemma HandleLog_unrecognized t lb topic0 rest :
  WasAlreadyConsumed lb = (false, None) ->
  Topics (RawLog lb) = topic0 :: rest ->
  topic0 <> OCRContractConfigSet -> topic0 <> OCRContractLatestRoundRequested ->
  HandleLog t lb None =
  ((marking lb).1, t, [CallWasAlreadyConsumed] ++ (marking lb).2).
Proof.
  intros Hwas Htopics Hcs Hrr. unfold_method; unfold marking.
  rewrite Hwas, Htopics. simpl.
  apply Z.eqb_neq in Hcs, Hrr. rewrite Hcs, Hrr.
  by destruct (MarkConsumed lb).
Qed.

Lemma HandleLog_address_mismatch_any t lb topic0 rest :
  WasAlreadyConsumed lb = (false, None) ->
  Topics (RawLog lb) = topic0 :: rest ->
  topic0 = OCRContractConfigSet \/ topic0 = OCRContractLatestRoundRequested ->
  Address (RawLog lb) <> contractAddress t ->
  HandleLog t lb None =
  (Return tt, t,
   [CallWasAlreadyConsumed;
    Errorf "log address of 0x%x does not match configured contract address of 0x%x"
      (Address (RawLog lb)) (contractAddress t)]).
Proof.
  intros Hwas Htopics Htopic Haddr. unfold_method.
  rewrite Hwas, Htopics. simpl.
  apply Z.eqb_neq in Haddr.
  destruct (topic0 =? OCRContractConfigSet) eqn:Hcs.
  - by rewrite Haddr.
  - destruct Htopic as [->| ->]; [by rewrite Z.eqb_refl in Hcs|].
    rewrite Z.eqb_refl. by rewrite Haddr.
Qed.

(** A log of another contract is dropped, whichever of the two topics it
    carries: the mismatch is logged and that is all. *)
Lemma HandleLog_address_mismatch t lb topic0 rest :
  WasAlreadyConsumed lb = (false, None) ->
  Topics (RawLog lb) = topic0 :: rest ->
  topic0 = OCRContractConfigSet \/ topic0 = OCRContractLatestRoundRequested ->
  Address (RawLog lb) <> contractAddress t ->
  HandleLog t lb None =
    (Return tt, t,
     [CallWasAlreadyConsumed;
      Errorf "log address of 0x%x does not match configured contract address of 0x%x"
        (Address (RawLog lb)) (contractAddress t)]) /\
  decodes (HandleLog t lb None).2 = false /\
  delivers (HandleLog t lb None).2 = false /\
  marks_consumed (HandleLog t lb None).2 = false.
Proof.
  intros Hwas Htopics Htopic Haddr.
  rewrite (HandleLog_address_mismatch_any t lb topic0 rest Hwas Htopics Htopic Haddr).
  by repeat split.
Qed.

(** The configuration-changed branch. *)
Lemma HandleLog_config_set t lb rest :
  WasAlreadyConsumed lb = (false, None) ->
  Topics (RawLog lb) = OCRContractConfigSet :: rest ->
  Address (RawLog lb) = contractAddress t ->
  HandleLog t lb None =
  match ParseConfigSet (RawLog lb) with
  | inl configSet =>
      ((marking lb).1, t,
       [CallWasAlreadyConsumed; CallParseConfigSet (RawLog lb);
        Deliver (ContractConfigFromConfigSetEvent
                   (ConfigSet.setRaw configSet (RawLog lb)))] ++ (marking lb).2)
  | inr e =>
      (Return tt, t,
       [CallWasAlreadyConsumed; CallParseConfigSet (RawLog lb);
        Errorw "could not parse config set" (Some e)])
  end.
Proof.
  intros Hwas Htopics Haddr. unfold_method; unfold marking.
  rewrite Hwas, Htopics. simpl.
  rewrite Z.eqb_refl, Haddr, Z.eqb_refl. simpl.
  destruct (ParseConfigSet (RawLog lb)); [|done].
  by destruct (MarkConsumed lb).
Qed.

(** The round-requested branch. *)
Lemma HandleLog_round_requested t lb rest :
  WasAlreadyConsumed lb = (false, None) ->
  Topics (RawLog lb) = OCRContractLatestRoundRequested :: rest ->
  OCRContractLatestRoundRequested <> OCRContractConfigSet ->
  Address (RawLog lb) = contractAddress t ->
  HandleLog t lb None =
  match ParseRoundRequested (RawLog lb) with
  | inl rr =>
      if (Round rr >=? Round (latestRoundRequested t)) &&
         (Epoch rr >=? Epoch (latestRoundRequested t))
      then ((marking lb).1, set_latestRoundRequested t rr,
            [CallWasAlreadyConsumed; CallParseRoundRequested (RawLog lb)]
            ++ (marking lb).2)
      else ((marking lb).1, t,
            [CallWasAlreadyConsumed; CallParseRoundRequested (RawLog lb);
             Warn "OCRContractTracker: ignoring out of date RoundRequested event"
               (latestRoundRequested t) rr] ++ (marking lb).2)
  | inr e =>
      (Return tt, t,
       [CallWasAlreadyConsumed; CallParseRoundRequested (RawLog lb);
        Errorw "could not parse round requested" (Some e)])
  end.
Proof.
  intros Hwas Htopics Hne Haddr. unfold_method; unfold marking.
  rewrite Hwas, Htopics. simpl.
  apply Z.eqb_neq in Hne. rewrite Hne, Z.eqb_refl, Haddr, Z.eqb_refl. simpl.
  destruct (ParseRoundRequested (RawLog lb)) as [rr|e]; [|done].
  destruct ((Round rr >=? Round (latestRoundRequested t)) &&
            (Epoch rr >=? Epoch (latestRoundRequested t)));
    by destruct (MarkConsumed lb).
Qed.

(** The tracker after a round request that decodes. *)
Lemma round_requested_tracker t lb rest rr :
  WasAlreadyConsumed lb = (false, None) ->
  Topics (RawLog lb) = OCRContractLatestRoundRequested :: rest ->
  OCRContractLatestRoundRequested <> OCRContractConfigSet ->
  Address (RawLog lb) = contractAddress t ->
  ParseRoundRequested (RawLog lb) = inl rr ->
  (HandleLog t lb None).1.2 =
  if (Round rr >=? Round (latestRoundRequested t)) &&
     (Epoch rr >=? Epoch (latestRoundRequested t))
  then set_latestRoundRequested t rr else t.
Proof.
  intros Hwas Htopics Hne Haddr Hparse.
  rewrite (HandleLog_round_requested t lb rest Hwas Htopics Hne Haddr), Hparse.
  by destruct ((Round rr >=? Round (latestRoundRequested t)) &&
               (Epoch rr >=? Epoch (latestRoundRequested t))).
Qed.

Lemma not_older_test (rr stored : OffchainAggregatorRoundRequested) :
  (Round rr >=? Round stored) && (Epoch rr >=? Epoch stored) = true <->
  not_older rr stored.
Proof. unfold not_older. rewrite andb_true_iff, !Z.geb_le. lia. Qed.

(** Whatever the log, [HandleLog] does not fault: the first topic is read
    after the test of the length. *)
Lemma HandleLog_never_faults t lb err :
  faulted (HandleLog t lb err).1.1 = false.
Proof.
  destruct err as [e|]; [by rewrite HandleLog_prior_error|].
  destruct (WasAlreadyConsumed lb) as [was [e|]] eqn:Hwas;
    [by rewrite (HandleLog_query_error t lb was e Hwas)|].
  destruct was; [by rewrite (HandleLog_consumed t lb Hwas)|].
  destruct (Topics (RawLog lb)) as [|topic0 rest] eqn:Htopics;
    [by rewrite (HandleLog_no_topics t lb Hwas Htopics)|].
  assert (Hmarking : faulted (marking lb).1 = false)
    by (unfold marking; by destruct (MarkConsumed lb)).
  destruct (decide (Address (RawLog lb) = contractAddress t)) as [Haddr|Haddr].
  - destruct (decide (topic0 = OCRContractConfigSet)) as [->|Hcs].
    + rewrite (HandleLog_config_set t lb rest Hwas Htopics Haddr).
      by destruct (ParseConfigSet (RawLog lb)).
    + destruct (decide (topic0 = OCRContractLatestRoundRequested)) as [->|Hrr].
      * rewrite (HandleLog_round_requested t lb rest Hwas Htopics Hcs Haddr).
        destruct (ParseRoundRequested (RawLog lb)) as [rr|]; [|done].
        by destruct ((Round rr >=? Round (latestRoundRequested t)) &&
                     (Epoch rr >=? Epoch (latestRoundRequested t))).
      * by rewrite (HandleLog_unrecognized t lb topic0 rest Hwas Htopics Hcs Hrr).
  - destruct (decide (topic0 = OCRContractConfigSet)) as [Hcs|Hcs];
      [by rewrite (HandleLog_address_mismatch_any t lb topic0 rest Hwas Htopics
                     (or_introl Hcs) Haddr)|].
    destruct (decide (topic0 = OCRContractLatestRoundRequested)) as [Hrr|Hrr];
      [by rewrite (HandleLog_address_mismatch_any t lb topic0 rest Hwas Htopics
                     (or_intror Hrr) Haddr)|].
    by rewrite (HandleLog_unrecognized t lb topic0 rest Hwas Htopics Hcs Hrr).
Qed.

(** C6. For every broadcast that reports it was already consumed,
    [HandleLog] returns at the query at the latest (before it, when a prior
    error is passed in): the tracker is as it was, the stored round request
    with it, and no decoder, no mailbox delivery and no marking is called. *)
Theorem HandleLog_skips_consumed t lb err :
  WasAlreadyConsumed lb = (true, None) ->
  HandleLog t lb err =
    (Return tt, t,
     match err with
     | Some e => [Errorw "OCRContract: error in previous LogListener" (Some e)]
     | None => [CallWasAlreadyConsumed]
     end) /\
  latestRoundRequested (HandleLog t lb err).1.2 = latestRoundRequested t /\
  decodes (HandleLog t lb err).2 = false /\
  delivers (HandleLog t lb err).2 = false /\
  marks_consumed (HandleLog t lb err).2 = false.
Proof.
  intros Hwas. destruct err as [e|].
  - rewrite HandleLog_prior_error. by repeat split.
  - rewrite (HandleLog_consumed t lb Hwas). by repeat split.
Qed.

(** The second of two invocations on one log, the marking of the first
    having succeeded, does nothing, whatever the first did. *)
Lemma HandleLog_twice t lb :
  HandleLog (HandleLog t lb None).1.2 (redelivered lb) None =
  (Return tt, (HandleLog t lb None).1.2, [CallWasAlreadyConsumed]).
Proof. by apply HandleLog_consumed. Qed.

(** C5. For a round-requested log of the tracked contract that has not been
    consumed and decodes to the candidate [rr]: the stored round request
    becomes [rr] when both the epoch and the round of [rr] are at least the
    stored ones, and in every other case the tracker is as it was.  With
    (epoch 5, round 3) stored, (5,2) and (4,9) are rejected and (5,4) is
    accepted. *)
Theorem round_request_update_is_monotonic t lb rest rr :
  WasAlreadyConsumed lb = (false, None) ->
  Topics (RawLog lb) = OCRContractLatestRoundRequested :: rest ->
  OCRContractLatestRoundRequested <> OCRContractConfigSet ->
  Address (RawLog lb) = contractAddress t ->
  ParseRoundRequested (RawLog lb) = inl rr ->
  (not_older rr (latestRoundRequested t) ->
     (HandleLog t lb None).1.2 = set_latestRoundRequested t rr) /\
  (~ not_older rr (latestRoundRequested t) -> (HandleLog t lb None).1.2 = t) /\
  (Epoch (latestRoundRequested t) = 5 -> Round (latestRoundRequested t) = 3 ->
     (Epoch rr = 5 -> Round rr = 2 -> (HandleLog t lb None).1.2 = t) /\
     (Epoch rr = 5 -> Round rr = 4 ->
        latestRoundRequested (HandleLog t lb None).1.2 = rr) /\
     (Epoch rr = 4 -> Round rr = 9 -> (HandleLog t lb None).1.2 = t)).
Proof.
  intros Hwas Htopics Hne Haddr Hparse.
  pose proof (round_requested_tracker t lb rest rr Hwas Htopics Hne Haddr Hparse)
    as Hstate.
  pose proof (not_older_test rr (latestRoundRequested t)) as Htest.
  assert (Haccept : not_older rr (latestRoundRequested t) ->
            (HandleLog t lb None).1.2 = set_latestRoundRequested t rr).
  { intros Hok. apply Htest in Hok. by rewrite Hstate, Hok. }
  assert (Hreject : ~ not_older rr (latestRoundRequested t) ->
            (HandleLog t lb None).1.2 = t).
  { intros Hold. rewrite Hstate.
    destruct ((Round rr >=? Round (latestRoundRequested t)) &&
              (Epoch rr >=? Epoch (latestRoundRequested t))) eqn:Hcond; [|done].
    exfalso. by apply Hold, Htest. }
  split; [exact Haccept|]. split; [exact Hreject|].
  intros Hepoch Hround. unfold not_older in *. split; [|split].
  - intros He Hr. apply Hreject. lia.
  - intros He Hr. rewrite Haccept by lia. reflexivity.
  - intros He Hr. apply Hreject. lia.
Qed.

(** C10. [HandleLog] returns without marking the log consumed after a prior
    error, for a log with no topics, and for a log of the tracked contract
    whose payload does not decode; for an unconsumed log whose first topic
    is neither of the two it knows, it decodes nothing, delivers nothing,
    leaves the tracker as it was, and does call [MarkConsumed]. *)
Theorem consume_marking_is_asymmetric t lb :
  (forall e, marks_consumed (HandleLog t lb (Some e)).2 = false) /\
  (Topics (RawLog lb) = [] ->
     forall err, marks_consumed (HandleLog t lb err).2 = false) /\
  (forall topic0 rest,
     WasAlreadyConsumed lb = (false, None) ->
     Topics (RawLog lb) = topic0 :: rest ->
     Address (RawLog lb) = contractAddress t ->
     (topic0 = OCRContractConfigSet /\
        exists e, ParseConfigSet (RawLog lb) = inr e) \/
     (topic0 = OCRContractLatestRoundRequested /\
        OCRContractLatestRoundRequested <> OCRContractConfigSet /\
        exists e, ParseRoundRequested (RawLog lb) = inr e) ->
     marks_consumed (HandleLog t lb None).2 = false) /\
  (forall topic0 rest,
     WasAlreadyConsumed lb = (false, None) ->
     Topics (RawLog lb) = topic0 :: rest ->
     topic0 <> OCRContractConfigSet ->
     topic0 <> OCRContractLatestRoundRequested ->
     marks_consumed (HandleLog t lb None).2 = true /\
     (HandleLog t lb None).1.2 = t /\
     decodes (HandleLog t lb None).2 = false /\
     delivers (HandleLog t lb None).2 = false).
Proof.
  split; [|split; [|split]].
  - intros e. by rewrite HandleLog_prior_error.
  - intros Htopics [e|]; [by rewrite HandleLog_prior_error|].
    destruct (WasAlreadyConsumed lb) as [was [e|]] eqn:Hwas.
    + by rewrite (HandleLog_query_error t lb was e Hwas).
    + destruct was.
      * by rewrite (HandleLog_consumed t lb Hwas).
      * by rewrite (HandleLog_no_topics t lb Hwas Htopics).
  - intros topic0 rest Hwas Htopics Haddr
      [(-> & e & Hparse) | (-> & Hne & e & Hparse)].
    + by rewrite (HandleLog_config_set t lb rest Hwas Htopics Haddr), Hparse.
    + by rewrite (HandleLog_round_requested t lb rest Hwas Htopics Hne Haddr),
        Hparse.
  - intros topic0 rest Hwas Htopics Hcs Hrr.
    rewrite (HandleLog_unrecognized t lb topic0 rest Hwas Htopics Hcs Hrr).
    cbn [fst snd]. split; [apply marks_consumed_marking|]. split; [done|].
    unfold marking. by destruct (MarkConsumed lb).
Qed.

(** C1, as the code has it.  [HandleLog] does not look at the removed flag:
    a log with [removed=true] that has not been consumed and comes from the
    tracked contract is handled as any other.  A round request that decodes
    to a candidate not older than the stored one replaces it, and a
    configuration change that decodes is delivered to the mailbox; both are
    then marked consumed. *)
Theorem removed_log_is_handled_as_new t lb rest :
  Removed (RawLog lb) = true ->
  WasAlreadyConsumed lb = (false, None) ->
  Address (RawLog lb) = contractAddress t ->
  (forall rr,
     Topics (RawLog lb) = OCRContractLatestRoundRequested :: rest ->
     OCRContractLatestRoundRequested <> OCRContractConfigSet ->
     ParseRoundRequested (RawLog lb) = inl rr ->
     not_older rr (latestRoundRequested t) ->
     latestRoundRequested (HandleLog t lb None).1.2 = rr /\
     marks_consumed (HandleLog t lb None).2 = true) /\
  (forall configSet,
     Topics (RawLog lb) = OCRContractConfigSet :: rest ->
     ParseConfigSet (RawLog lb) = inl configSet ->
     (HandleLog t lb None).2 =
       [CallWasAlreadyConsumed; CallParseConfigSet (RawLog lb);
        Deliver (ContractConfigFromConfigSetEvent
                   (ConfigSet.setRaw configSet (RawLog lb)))] ++ (marking lb).2 /\
     delivers (HandleLog t lb None).2 = true).
Proof.
  intros _ Hwas Haddr. split.
  - intros rr Htopics Hne Hparse Hok.
    rewrite (HandleLog_round_requested t lb rest Hwas Htopics Hne Haddr), Hparse.
    apply not_older_test in Hok. rewrite Hok. cbn [fst snd].
    split; [done|]. apply marks_consumed_marking.
  - intros configSet Htopics Hparse.
    rewrite (HandleLog_config_set t lb rest Hwas Htopics Haddr), Hparse.
    by cbn [fst snd].
Qed.
End HandleLog.

(** [HandleLog_address_mismatch] on a configuration change of another
    contract: nothing is decoded and nothing reaches the mailbox. *)
Lemma HandleLog_address_mismatch_witness :
  HandleLog (H := Sample.collaborators) Sample.tracker53
    (Sample.fresh_broadcast
       (Sample.chainLog 0xbad Sample.topicConfigSet [Byte.x01] 11 false)) None =
  (Return tt, Sample.tracker53,
   [CallWasAlreadyConsumed;
    Errorf "log address of 0x%x does not match configured contract address of 0x%x"
      0xbad Sample.tracked]).
Proof.
  apply (HandleLog_address_mismatch (H := Sample.collaborators) Sample.tracker53
           (Sample.fresh_broadcast
              (Sample.chainLog 0xbad Sample.topicConfigSet [Byte.x01] 11 false))
           Sample.topicConfigSet []).
  - reflexivity.
  - reflexivity.
  - left. reflexivity.
  - discriminate.
Defined.

(** [HandleLog_skips_consumed] on a consumed round request that would
    otherwise be accepted. *)
Lemma HandleLog_skips_consumed_witness :
  HandleLog (H := Sample.collaborators) Sample.tracker53
    (redelivered (Sample.fresh_broadcast (Sample.candidate Byte.x05 Byte.x04)))
    None =
  (Return tt, Sample.tracker53, [CallWasAlreadyConsumed]).
Proof.
  apply (HandleLog_skips_consumed (H := Sample.collaborators)
           Sample.tracker53
           (redelivered (Sample.fresh_broadcast (Sample.candidate Byte.x05 Byte.x04)))
           None).
  reflexivity.
Defined.

(** [round_request_update_is_monotonic] with (5,3) stored: the candidate
    (5,4) is stored, (5,2) and (4,9) leave the tracker as it was. *)
Lemma round_request_update_is_monotonic_witness :
  latestRoundRequested
    (HandleLog (H := Sample.collaborators) Sample.tracker53
       (Sample.fresh_broadcast (Sample.candidate Byte.x05 Byte.x04)) None).1.2 =
  Sample.decoded Byte.x05 Byte.x04 /\
  (HandleLog (H := Sample.collaborators) Sample.tracker53
     (Sample.fresh_broadcast (Sample.candidate Byte.x05 Byte.x02)) None).1.2 =
  Sample.tracker53 /\
  (HandleLog (H := Sample.collaborators) Sample.tracker53
     (Sample.fresh_broadcast (Sample.candidate Byte.x04 Byte.x09)) None).1.2 =
  Sample.tracker53.
Proof.
  assert (Hne : OCRContractLatestRoundRequested (Collaborators := Sample.collaborators)
                <> OCRContractConfigSet (Collaborators := Sample.collaborators))
    by discriminate.
  pose proof (fun e r =>
    round_request_update_is_monotonic (H := Sample.collaborators)
      Sample.tracker53 (Sample.fresh_broadcast (Sample.candidate e r)) []
      (Sample.decoded e r) eq_refl eq_refl Hne eq_refl eq_refl) as Hthm.
  split; [|split].
  - destruct (Hthm Byte.x05 Byte.x04) as (_ & _ & Hsample).
    destruct (Hsample eq_refl eq_refl) as (_ & Haccepted & _).
    exact (Haccepted eq_refl eq_refl).
  - destruct (Hthm Byte.x05 Byte.x02) as (_ & _ & Hsample).
    destruct (Hsample eq_refl eq_refl) as (Hrejected & _ & _).
    exact (Hrejected eq_refl eq_refl).
  - destruct (Hthm Byte.x04 Byte.x09) as (_ & _ & Hsample).
    destruct (Hsample eq_refl eq_refl) as (_ & _ & Hrejected).
    exact (Hrejected eq_refl eq_refl).
Defined.

(** [consume_marking_is_asymmetric] on three ignored logs: without topics
    and with a payload that does not decode there is no marking, with an
    unknown topic there is. *)
Lemma consume_marking_is_asymmetric_witness :
  marks_consumed
    (HandleLog (H := Sample.collaborators) Sample.tracker53
       (Sample.fresh_broadcast Sample.bare) None).2 = false /\
  marks_consumed
    (HandleLog (H := Sample.collaborators) Sample.tracker53
       (Sample.fresh_broadcast Sample.undecodable) None).2 = false /\
  marks_consumed
    (HandleLog (H := Sample.collaborators) Sample.tracker53
       (Sample.fresh_broadcast Sample.foreignTopic) None).2 = true.
Proof.
  pose proof (fun raw =>
    consume_marking_is_asymmetric (H := Sample.collaborators)
      Sample.tracker53 (Sample.fresh_broadcast raw)) as Hthm.
  split; [|split].
  - destruct (Hthm Sample.bare) as (_ & Hbare & _).
    exact (Hbare eq_refl None).
  - destruct (Hthm Sample.undecodable) as (_ & _ & Hundecodable & _).
    apply (Hundecodable Sample.topicConfigSet [] eq_refl eq_refl eq_refl).
    left. split; [reflexivity|]. eexists. reflexivity.
  - destruct (Hthm Sample.foreignTopic) as (_ & _ & _ & Hforeign).
    apply (Hforeign 0xddf252ad [] eq_refl eq_refl); discriminate.
Defined.

(** [removed_log_is_handled_as_new] on two removed logs: the round request
    (5,4) replaces the stored (5,3), and the configuration is delivered. *)
Lemma removed_log_is_handled_as_new_witness :
  latestRoundRequested
    (HandleLog (H := Sample.collaborators) Sample.tracker53
       (Sample.fresh_broadcast Sample.removedRoundRequested) None).1.2 =
  mkRoundRequested 0 [] 5 4 Sample.removedRoundRequested /\
  delivers
    (HandleLog (H := Sample.collaborators) Sample.tracker53
       (Sample.fresh_broadcast Sample.removedConfigSet) None).2 = true.
Proof.
  pose proof (fun raw Hremoved =>
    removed_log_is_handled_as_new (H := Sample.collaborators)
      Sample.tracker53 (Sample.fresh_broadcast raw) [] Hremoved eq_refl) as Hthm.
  split.
  - destruct (Hthm Sample.removedRoundRequested eq_refl eq_refl) as (Hround & _).
    apply Hround; try reflexivity; [discriminate|].
    unfold not_older; simpl. lia.
  - destruct (Hthm Sample.removedConfigSet eq_refl eq_refl) as (_ & Hconfig).
    eapply Hconfig; reflexivity.
Defined.

(** C1, as the design document words it, fails: the removed round request
    (5,4) replaces the stored (5,3), the removed configuration change reaches
    the mailbox, and so [reorg_safe] does not hold. *)
Lemma removed_log_advances_state :
  (Removed Sample.removedRoundRequested = true /\
   latestRoundRequested
     (HandleLog (H := Sample.collaborators) Sample.tracker53
        (Sample.fresh_broadcast Sample.removedRoundRequested) None).1.2
   <> latestRoundRequested Sample.tracker53) /\
  (Removed Sample.removedConfigSet = true /\
   (HandleLog (H := Sample.collaborators) Sample.tracker53
      (Sample.fresh_broadcast Sample.removedConfigSet) None).2 =
   [CallWasAlreadyConsumed; CallParseConfigSet Sample.removedConfigSet;
    Deliver (7 : ContractConfig (Collaborators := Sample.collaborators));
    CallMarkConsumed]) /\
  ~ reorg_safe (H := Sample.collaborators).
Proof.
  split; [|split].
  - split; [reflexivity|]. vm_compute. discriminate.
  - split; reflexivity.
  - intros Hsafe.
    destruct (Hsafe Sample.tracker53
                (Sample.fresh_broadcast Sample.removedConfigSet) None eq_refl)
      as [_ Hdelivers].
    vm_compute in Hdelivers. discriminate.
Qed.

Section ConfigFromLogs.
Context `{Collaborators}.
Implicit Types (t : OCRContractTracker).

(** [ConfigFromLogs] case by case, on the answer of the client to the one
    query it sends. *)
Lemma ConfigFromLogs_cases t (changedInBlock : Z) :
  let q := config_query t (int64_of_uint64 changedInBlock)
             (int64_of_uint64 changedInBlock) in
  ConfigFromLogs t changedInBlock =
  match FilterLogs q with
  | (_, Some e) => (Return (zeroContractConfig, Some e), t, [CallFilterLogs q])
  | (logs, None) =>
      match last logs with
      | None =>
          (Return (zeroContractConfig, Some (ErrNoLogs (contractAddress t))), t,
           [CallFilterLogs q])
      | Some l =>
          match ParseConfigSet l with
          | inr e =>
              (Return (zeroContractConfig,
                       Some (Wrap e "ConfigFromLogs failed to ParseConfigSet")),
               t, [CallFilterLogs q; CallParseConfigSet l])
          | inl latest =>
              if Address l =? contractAddress t then
                (Return (ContractConfigFromConfigSetEvent (ConfigSet.setRaw latest l),
                         None),
                 t, [CallFilterLogs q; CallParseConfigSet l])
              else
                (Return (zeroContractConfig,
                         Some (ErrAddressMismatch (Address l) (contractAddress t))),
                 t, [CallFilterLogs q; CallParseConfigSet l])
          end
      end
  end.
Proof.
  intros q. subst q. unfold config_query. unfold_method. unfold big_NewInt.
  destruct (FilterLogs _) as [logs [e|]]; [done|]. simpl.
  rewrite last_lookup.
  destruct logs as [|l0 logs]; [done|].
  replace (Z.of_nat (length (l0 :: logs)) =? 0) with false
    by (symmetry; apply Z.eqb_neq; simpl; lia).
  replace ((0 <=? Z.of_nat (length (l0 :: logs)) - 1) &&
           (Z.of_nat (length (l0 :: logs)) - 1 <? Z.of_nat (length (l0 :: logs))))
    with true
    by (symmetry; rewrite andb_true_iff, Z.leb_le, Z.ltb_lt; simpl; lia).
  replace (Z.to_nat (Z.of_nat (length (l0 :: logs)) - 1))
    with (pred (length (l0 :: logs))) by (simpl; lia).
  destruct ((l0 :: logs) !! pred (length (l0 :: logs))) as [l|] eqn:Hlast.
  2:{ apply lookup_ge_None in Hlast. simpl in Hlast. lia. }
  destruct (ParseConfigSet l) as [latest|e]; [|done].
  simpl. by destruct (Address l =? contractAddress t).
Qed.

(** The query goes out first, whatever comes back: over the tracked
    contract and the configuration-changed topic, both block bounds being
    [int64(changedInBlock)]. *)
Lemma ConfigFromLogs_query t (changedInBlock : Z) :
  query_issued (ConfigFromLogs t changedInBlock).2 =
  Some (config_query t (int64_of_uint64 changedInBlock)
          (int64_of_uint64 changedInBlock)).
Proof.
  rewrite ConfigFromLogs_cases.
  destruct (FilterLogs _) as [logs [e|]]; [done|].
  destruct (last logs) as [l|]; [|done].
  destruct (ParseConfigSet l); [|done].
  by destruct (Address l =? contractAddress t).
Qed.

(** [ConfigFromLogs] always returns: the last log is read after the test of
    the length. *)
Lemma ConfigFromLogs_returns t (changedInBlock : Z) :
  exists c err, (ConfigFromLogs t changedInBlock).1.1 = Return (c, err).
Proof.
  rewrite ConfigFromLogs_cases. cbv zeta.
  destruct (FilterLogs _) as [logs [e|]]; [by eexists _, _|].
  destruct (last logs) as [l|]; [|by eexists _, _].
  destruct (ParseConfigSet l); [|by eexists _, _].
  destruct (Address l =? contractAddress t); by eexists _, _.
Qed.

Lemma int64_of_uint64_small (x : Z) : 0 <= x < 2 ^ 63 -> int64_of_uint64 x = x.
Proof. intros Hx. unfold int64_of_uint64. rewrite Z.mod_small; lia. Qed.

(** Below 2^63 the range of the query is exactly the block asked for. *)
Lemma ConfigFromLogs_query_below_2_63 t (changedInBlock : Z) :
  0 <= changedInBlock < 2 ^ 63 ->
  query_issued (ConfigFromLogs t changedInBlock).2 =
  Some (config_query t changedInBlock changedInBlock).
Proof.
  intros Hb. by rewrite ConfigFromLogs_query, int64_of_uint64_small.
Qed.

(** C8. The bounds of the query are [int64(changedInBlock)]: for the block
    number 2^63, a [uint64], the query that goes out is over the single
    block -2^63.  The rest is as the design document says: an empty answer is
    the "no logs" error with the zero configuration, and of a non-empty
    answer the last log is decoded and a log of another address is an
    error. *)
Theorem ConfigFromLogs_query_wraps t :
  query_issued (ConfigFromLogs t (2 ^ 63)).2 =
    Some (config_query t (- 2 ^ 63) (- 2 ^ 63)) /\
  (forall changedInBlock,
     FilterLogs (config_query t (int64_of_uint64 changedInBlock)
                   (int64_of_uint64 changedInBlock)) = ([], None) ->
     (ConfigFromLogs t changedInBlock).1.1 =
     Return (zeroContractConfig, Some (ErrNoLogs (contractAddress t)))) /\
  (forall changedInBlock logs l,
     FilterLogs (config_query t (int64_of_uint64 changedInBlock)
                   (int64_of_uint64 changedInBlock)) = (logs ++ [l], None) ->
     decodes (ConfigFromLogs t changedInBlock).2 = true /\
     (Address l <> contractAddress t ->
      exists e, (ConfigFromLogs t changedInBlock).1.1 =
                Return (zeroContractConfig, Some e))).
Proof.
  split; [|split].
  - by rewrite ConfigFromLogs_query.
  - intros b Hlogs. rewrite ConfigFromLogs_cases. cbv zeta. by rewrite Hlogs.
  - intros b logs l Hlogs. rewrite ConfigFromLogs_cases. cbv zeta.
    rewrite Hlogs, last_snoc.
    destruct (ParseConfigSet l) as [latest|e].
    + destruct (Address l =? contractAddress t) eqn:Haddr.
      * split; [done|]. intros Hne. by apply Z.eqb_eq in Haddr.
      * split; [done|]. intros _. by eexists.
    + split; [done|]. intros _. by eexists.
Qed.
End ConfigFromLogs.

(** [ConfigFromLogs_query_below_2_63] for block 12. *)
Lemma ConfigFromLogs_query_below_2_63_witness :
  query_issued (ConfigFromLogs (H := Sample.collaborators) Sample.tracker53 12).2 =
  Some (config_query (H := Sample.collaborators) Sample.tracker53 12 12).
Proof.
  apply (ConfigFromLogs_query_below_2_63 (H := Sample.collaborators)
           Sample.tracker53 12).
  lia.
Defined.

(** [ConfigFromLogs_query_wraps] on the sample chain: block 13 has no
    configuration change, block 12 has two and one is decoded. *)
Lemma ConfigFromLogs_query_wraps_witness :
  (ConfigFromLogs (H := Sample.collaborators) Sample.tracker53 13).1.1 =
    Return (0, Some (ErrNoLogs Sample.tracked)) /\
  decodes (ConfigFromLogs (H := Sample.collaborators) Sample.tracker53 12).2 = true.
Proof.
  pose proof (ConfigFromLogs_query_wraps (H := Sample.collaborators)
                Sample.tracker53) as (_ & Hempty & Hlast).
  split.
  - apply (Hempty 13). reflexivity.
  - apply (Hlast 12
             [Sample.chainLog Sample.tracked Sample.topicConfigSet [Byte.x02] 12 false]
             (Sample.chainLog Sample.tracked Sample.topicConfigSet [Byte.x03] 12 false)).
    reflexivity.
Defined.

(** *** The log handler over every path, and the chain reads *)

Section Paths.
Context `{Collaborators}.
Implicit Types (t : OCRContractTracker) (lb : Broadcast).

(** Every call of [HandleLog] takes one of the eleven paths. *)
Lemma HandleLog_outcome t lb err : outcome t lb err (HandleLog t lb err).
Proof.
  destruct err as [e|].
  { exact (prior_error t lb _ _ e eq_refl (HandleLog_prior_error t lb e)). }
  destruct (WasAlreadyConsumed lb) as [was [e|]] eqn:Hwas.
  { exact (query_failed t lb _ _ was e eq_refl Hwas
             (HandleLog_query_error t lb was e Hwas)). }
  destruct was.
  { exact (already_consumed t lb _ _ eq_refl Hwas (HandleLog_consumed t lb Hwas)). }
  destruct (Topics (RawLog lb)) as [|topic0 rest] eqn:Htopics.
  { exact (no_topics t lb _ _ eq_refl Hwas Htopics
             (HandleLog_no_topics t lb Hwas Htopics)). }
  destruct (decide (topic0 = OCRContractConfigSet)) as [Hcs|Hcs].
  - destruct (decide (Address (RawLog lb) = contractAddress t)) as [Haddr|Haddr].
    + subst topic0.
      pose proof (HandleLog_config_set t lb rest Hwas Htopics Haddr) as Hrun.
      destruct (ParseConfigSet (RawLog lb)) as [configSet|e] eqn:Hparse.
      * exact (config_delivered t lb _ _ rest configSet eq_refl Hwas Htopics
                 Haddr Hparse Hrun).
      * exact (config_undecodable t lb _ _ rest e eq_refl Hwas Htopics
                 Haddr Hparse Hrun).
    + exact (other_contract t lb _ _ topic0 rest eq_refl Hwas Htopics
               (or_introl Hcs) Haddr
               (HandleLog_address_mismatch_any t lb topic0 rest Hwas Htopics
                  (or_introl Hcs) Haddr)).
  - destruct (decide (topic0 = OCRContractLatestRoundRequested)) as [Hrr|Hrr].
    + destruct (decide (Address (RawLog lb) = contractAddress t)) as [Haddr|Haddr].
      * subst topic0.
        pose proof (HandleLog_round_requested t lb rest Hwas Htopics Hcs Haddr)
          as Hrun.
        destruct (ParseRoundRequested (RawLog lb)) as [rr|e] eqn:Hparse.
        -- destruct ((Round rr >=? Round (latestRoundRequested t)) &&
                     (Epoch rr >=? Epoch (latestRoundRequested t))) eqn:Htest.
           ++ apply not_older_test in Htest.
              exact (round_stored t lb _ _ rest rr eq_refl Hwas Htopics Hcs
                       Haddr Hparse Htest Hrun).
           ++ assert (Hold : ~ not_older rr (latestRoundRequested t)).
              { intros Hok. apply not_older_test in Hok. congruence. }
              exact (round_ignored t lb _ _ rest rr eq_refl Hwas Htopics Hcs
                       Haddr Hparse Hold Hrun).
        -- exact (round_undecodable t lb _ _ rest e eq_refl Hwas Htopics Hcs
                    Haddr Hparse Hrun).
      * exact (other_contract t lb _ _ topic0 rest eq_refl Hwas Htopics
                 (or_intror Hrr) Haddr
                 (HandleLog_address_mismatch_any t lb topic0 rest Hwas Htopics
                    (or_intror Hrr) Haddr)).
    + exact (unrecognized t lb _ _ topic0 rest eq_refl Hwas Htopics Hcs Hrr
               (HandleLog_unrecognized t lb topic0 rest Hwas Htopics Hcs Hrr)).
Qed.

Lemma delivers_marking lb : delivers (marking lb).2 = false.
Proof. unfold marking. by destruct (MarkConsumed lb). Qed.

Lemma deliveries_made_marking lb calls :
  deliveries_made (calls ++ (marking lb).2) = deliveries_made calls.
Proof.
  unfold deliveries_made, marking. rewrite List.filter_app, length_app.
  destruct (MarkConsumed lb); simpl; lia.
Qed.

(** [HandleLog] delivers to the mailbox on one path only: an unconsumed
    configuration-changed log of the tracked contract that decodes, with no
    prior error.  On that path it delivers once, and on no path more than
    once. *)
Theorem HandleLog_delivers_iff t lb err :
  (delivers (HandleLog t lb err).2 = true <->
   err = None /\ WasAlreadyConsumed lb = (false, None) /\
   exists rest configSet,
     Topics (RawLog lb) = OCRContractConfigSet :: rest /\
     Address (RawLog lb) = contractAddress t /\
     ParseConfigSet (RawLog lb) = inl configSet) /\
  (deliveries_made (HandleLog t lb err).2 <= 1)%nat.
Proof.
  destruct (HandleLog_outcome t lb err)
    as [e He Hr | was e He Hwas Hr | He Hwas Hr | He Hwas Htopics Hr
       | topic0 rest He Hwas Htopics Hcs Hrr Hr
       | topic0 rest He Hwas Htopics Htopic Haddr Hr
       | rest e He Hwas Htopics Haddr Hparse Hr
       | rest configSet He Hwas Htopics Haddr Hparse Hr
       | rest e He Hwas Htopics Hne Haddr Hparse Hr
       | rest rr He Hwas Htopics Hne Haddr Hparse Hok Hr
       | rest rr He Hwas Htopics Hne Haddr Hparse Hold Hr];
    rewrite Hr; cbn [fst snd].
  - split; [|unfold deliveries_made; simpl; lia]. split; [done|]. intros (? & _). congruence.
  - split; [|unfold deliveries_made; simpl; lia]. split; [done|]. intros (_ & ? & _). congruence.
  - split; [|unfold deliveries_made; simpl; lia]. split; [done|]. intros (_ & ? & _). congruence.
  - split; [|unfold deliveries_made; simpl; lia]. split; [done|].
    intros (_ & _ & ? & ? & ? & _). congruence.
  - split; [|rewrite deliveries_made_marking; unfold deliveries_made; simpl; lia].
    unfold delivers. rewrite existsb_app. fold (delivers (marking lb).2).
    rewrite delivers_marking. split; [done|].
    intros (_ & _ & ? & ? & ? & _). congruence.
  - split; [|unfold deliveries_made; simpl; lia]. split; [done|].
    intros (_ & _ & ? & ? & Htopics' & Haddr' & _).
    destruct Htopic; congruence.
  - split; [|unfold deliveries_made; simpl; lia]. split; [done|].
    intros (_ & _ & ? & ? & _ & _ & ?). congruence.
  - split; [|rewrite deliveries_made_marking; unfold deliveries_made; simpl; lia].
    split; [|done]. intros _. split; [done|]. split; [done|]. by eexists _, _.
  - split; [|unfold deliveries_made; simpl; lia]. split; [done|].
    intros (_ & _ & ? & ? & ? & _). congruence.
  - split; [|rewrite deliveries_made_marking; unfold deliveries_made; simpl; lia].
    unfold delivers. rewrite existsb_app. fold (delivers (marking lb).2).
    rewrite delivers_marking. split; [done|].
    intros (_ & _ & ? & ? & ? & _). congruence.
  - split; [|rewrite deliveries_made_marking; unfold deliveries_made; simpl; lia].
    unfold delivers. rewrite existsb_app. fold (delivers (marking lb).2).
    rewrite delivers_marking. split; [done|].
    intros (_ & _ & ? & ? & ? & _). congruence.
Qed.

(** What one call of [HandleLog] does to the tracker: nothing, or it stores
    a round request that is not older than the stored one. *)
Lemma HandleLog_tracker t lb err :
  (HandleLog t lb err).1.2 = t \/
  exists rest rr,
    err = None /\ WasAlreadyConsumed lb = (false, None) /\
    Topics (RawLog lb) = OCRContractLatestRoundRequested :: rest /\
    OCRContractLatestRoundRequested <> OCRContractConfigSet /\
    Address (RawLog lb) = contractAddress t /\
    ParseRoundRequested (RawLog lb) = inl rr /\
    not_older rr (latestRoundRequested t) /\
    (HandleLog t lb err).1.2 = set_latestRoundRequested t rr.
Proof.
  destruct (HandleLog_outcome t lb err)
    as [e He Hr | was e He Hwas Hr | He Hwas Hr | He Hwas Htopics Hr
       | topic0 rest He Hwas Htopics Hcs Hrr Hr
       | topic0 rest He Hwas Htopics Htopic Haddr Hr
       | rest e He Hwas Htopics Haddr Hparse Hr
       | rest configSet He Hwas Htopics Haddr Hparse Hr
       | rest e He Hwas Htopics Hne Haddr Hparse Hr
       | rest rr He Hwas Htopics Hne Haddr Hparse Hok Hr
       | rest rr He Hwas Htopics Hne Haddr Hparse Hold Hr];
    rewrite Hr; cbn [fst snd]; try (by left).
  right. by exists rest, rr.
Qed.

(** Over any sequence of deliveries the tracker keeps its contract address
    and its job, and the stored epoch and the stored round never go down. *)
Theorem stored_round_request_never_goes_back t
    (ds : list (Broadcast * option error)) :
  contractAddress (deliver_all t ds) = contractAddress t /\
  jobID (deliver_all t ds) = jobID t /\
  Epoch (latestRoundRequested t) <= Epoch (latestRoundRequested (deliver_all t ds)) /\
  Round (latestRoundRequested t) <= Round (latestRoundRequested (deliver_all t ds)).
Proof.
  revert t. induction ds as [|[lb err] ds IH]; intros t.
  - simpl. lia.
  - change (deliver_all t ((lb, err) :: ds))
      with (deliver_all (HandleLog t lb err).1.2 ds).
    destruct (IH (HandleLog t lb err).1.2) as (Haddr & Hjob & Hepoch & Hround).
    destruct (HandleLog_tracker t lb err)
      as [Hsame | (rest & rr & _ & _ & _ & _ & _ & _ & [Hok1 Hok2] & Hstored)].
    + rewrite Hsame in *. done.
    + rewrite Hstored in *. simpl in *. lia.
Qed.

(** A call that delivers to the mailbox leaves the tracker as it was. *)
Lemma delivery_keeps_tracker t lb err :
  delivers (HandleLog t lb err).2 = true -> (HandleLog t lb err).1.2 = t.
Proof.
  destruct (HandleLog_tracker t lb err)
    as [Hsame | (rest & rr & -> & Hwas & Htopics & Hne & Haddr & Hparse & Hok & _)];
    [done|].
  rewrite (HandleLog_round_requested t lb rest Hwas Htopics Hne Haddr), Hparse.
  apply not_older_test in Hok. rewrite Hok. cbn [fst snd].
  unfold delivers. rewrite existsb_app. fold (delivers (marking lb).2).
  by rewrite delivers_marking.
Qed.

(** Handling the same broadcast a second time, with the same answers from
    the broadcaster, leaves the tracker as the first time left it; when the
    first time delivered a configuration, the second time does all of it
    again, the delivery included. *)
Theorem HandleLog_again t lb err :
  (HandleLog (HandleLog t lb err).1.2 lb err).1.2 = (HandleLog t lb err).1.2 /\
  (delivers (HandleLog t lb err).2 = true ->
   HandleLog (HandleLog t lb err).1.2 lb err = HandleLog t lb err).
Proof.
  destruct (HandleLog_tracker t lb err)
    as [Hsame | (rest & rr & -> & Hwas & Htopics & Hne & Haddr & Hparse & Hok
                 & Hstored)].
  - rewrite Hsame. done.
  - split.
    + rewrite Hstored.
      rewrite (round_requested_tracker (set_latestRoundRequested t rr) lb rest rr
                 Hwas Htopics Hne Haddr Hparse).
      simpl. replace ((Round rr >=? Round rr) && (Epoch rr >=? Epoch rr)) with true;
        [done|].
      symmetry. rewrite andb_true_iff, !Z.geb_le. lia.
    + intros Hdelivers.
      by rewrite (delivery_keeps_tracker t lb None Hdelivers).
Qed.

End Paths.

(** [stored_round_request_never_goes_back] on the round requests (5,4),
    (4,9) and (6,4) delivered in turn to a tracker that holds (5,3): it ends
    on (6,4). *)
Lemma stored_round_request_never_goes_back_witness :
  LatestRoundRequested
    (deliver_all (H := Sample.collaborators) Sample.tracker53 Sample.deliveries) =
  ([], 6, 4, None) /\
  5 <= Epoch (latestRoundRequested
                (deliver_all (H := Sample.collaborators) Sample.tracker53
                   Sample.deliveries)).
Proof.
  split; [reflexivity|].
  apply (stored_round_request_never_goes_back (H := Sample.collaborators)
           Sample.tracker53 Sample.deliveries).
Defined.

(** [HandleLog_delivers_iff] on the removed configuration change and on a
    round request. *)
Lemma HandleLog_delivers_iff_witness :
  delivers (HandleLog (H := Sample.collaborators) Sample.tracker53
              (Sample.fresh_broadcast Sample.removedConfigSet) None).2 = true /\
  (deliveries_made
     (HandleLog (H := Sample.collaborators) Sample.tracker53
        (Sample.fresh_broadcast (Sample.candidate Byte.x05 Byte.x04)) None).2
   <= 1)%nat.
Proof.
  split.
  - apply (HandleLog_delivers_iff (H := Sample.collaborators) Sample.tracker53
             (Sample.fresh_broadcast Sample.removedConfigSet) None).
    split; [reflexivity|]. split; [reflexivity|].
    eexists _, _. split; [reflexivity|]. split; reflexivity.
  - apply (HandleLog_delivers_iff (H := Sample.collaborators) Sample.tracker53
             (Sample.fresh_broadcast (Sample.candidate Byte.x05 Byte.x04)) None).
Defined.

(** [HandleLog_again] on a configuration change: the second call delivers
    the configuration a second time. *)
Lemma HandleLog_again_witness :
  HandleLog (H := Sample.collaborators)
    (HandleLog (H := Sample.collaborators) Sample.tracker53
       (Sample.fresh_broadcast Sample.removedConfigSet) None).1.2
    (Sample.fresh_broadcast Sample.removedConfigSet) None =
  HandleLog (H := Sample.collaborators) Sample.tracker53
    (Sample.fresh_broadcast Sample.removedConfigSet) None.
Proof.
  apply (HandleLog_again (H := Sample.collaborators) Sample.tracker53
           (Sample.fresh_broadcast Sample.removedConfigSet) None).
  reflexivity.
Defined.


Section ChainReads.
Context `{Collaborators} `{ContractCaller}.
Implicit Types (t : OCRContractTracker).


(** [ConfigFromLogs] reads: it leaves the tracker as it was, delivers
    nothing to the mailbox, marks nothing consumed, and calls a decoder at
    most once. *)
Theorem ConfigFromLogs_only_reads t (changedInBlock : Z) :
  (ConfigFromLogs t changedInBlock).1.2 = t /\
  delivers (ConfigFromLogs t changedInBlock).2 = false /\
  marks_consumed (ConfigFromLogs t changedInBlock).2 = false /\
  (decodings_made (ConfigFromLogs t changedInBlock).2 <= 1)%nat.
Proof.
  rewrite ConfigFromLogs_cases. cbv zeta.
  destruct (FilterLogs _) as [logs [e|]]; [repeat split; try done; unfold decodings_made; simpl; lia|].
  destruct (last logs) as [l|]; [|repeat split; try done; unfold decodings_made; simpl; lia].
  destruct (ParseConfigSet l); [|repeat split; try done; unfold decodings_made; simpl; lia].
  destruct (Address l =? contractAddress t); repeat split; try done; unfold decodings_made; simpl; lia.
Qed.

(** The block number [LatestConfigDetails] returns, a [uint32] of the
    contract, is one [ConfigFromLogs] queries exactly; an error of the
    contract call or of the digest conversion comes back wrapped, with block
    number 0. *)
Theorem ConfigFromLogs_of_LatestConfigDetails t (d : list Byte.byte) :
  (forall e, caller_LatestConfigDetails.2 = Some e ->
     LatestConfigDetails =
     (0, zeroConfigDigest, Some (Wrap e "error getting LatestConfigDetails"))) /\
  (forall e, caller_LatestConfigDetails.2 = None ->
     BytesToConfigDigest (ConfigDetails.ConfigDigest caller_LatestConfigDetails.1)
       = (d, Some e) ->
     LatestConfigDetails = (0, d, Some (Wrap e "error getting config digest"))) /\
  (caller_LatestConfigDetails.2 = None ->
   BytesToConfigDigest (ConfigDetails.ConfigDigest caller_LatestConfigDetails.1)
     = (d, None) ->
   0 <= ConfigDetails.BlockNumber caller_LatestConfigDetails.1 < 2 ^ 32 ->
   LatestConfigDetails =
     (ConfigDetails.BlockNumber caller_LatestConfigDetails.1, d, None) /\
   query_issued (ConfigFromLogs t LatestConfigDetails.1.1).2 =
     Some (config_query t (ConfigDetails.BlockNumber caller_LatestConfigDetails.1)
             (ConfigDetails.BlockNumber caller_LatestConfigDetails.1))).
Proof.
  unfold LatestConfigDetails.
  destruct caller_LatestConfigDetails as [result err]. simpl.
  split; [|split].
  - intros e ->. done.
  - intros e -> Hdigest. by rewrite Hdigest.
  - intros -> Hdigest Hblock. rewrite Hdigest. simpl.
    assert (Hconv : uint64_of_uint32 (ConfigDetails.BlockNumber result) =
                    ConfigDetails.BlockNumber result).
    { unfold uint64_of_uint32. apply Z.mod_small. lia. }
    rewrite Hconv. split; [done|].
    rewrite ConfigFromLogs_query, int64_of_uint64_small; [done | lia].
Qed.
End ChainReads.


(** [ConfigFromLogs_of_LatestConfigDetails] with a contract whose
    configuration last changed in block 12. *)
Lemma ConfigFromLogs_of_LatestConfigDetails_witness :
  LatestConfigDetails (H := Sample.caller) = (12, Sample.digest16, None) /\
  query_issued
    (ConfigFromLogs (H := Sample.collaborators) Sample.tracker53
       (LatestConfigDetails (H := Sample.caller)).1.1).2 =
  Some (config_query (H := Sample.collaborators) Sample.tracker53 12 12).
Proof.
  pose proof (ConfigFromLogs_of_LatestConfigDetails
                (H := Sample.collaborators) (H0 := Sample.caller)
                Sample.tracker53 Sample.digest16) as (_ & _ & Hok).
  apply Hok.
  - reflexivity.
  - reflexivity.
  - simpl. lia.
Defined.

End tracker_props.
